(** * validate-request-body: a shallow embedding of [src/index.js]

    The middleware factory [validateRequestBody] and its three helpers
    [isPresent], [validateType] and [validateValue] are embedded as Rocq
    functions.  The two arrays/objects the JavaScript mutates in place
    ([errors] and [validatedData]) are threaded explicitly; a thrown
    exception (a custom validator that throws, a call of a non-callable
    property) is the [Throws] outcome.

    The embedding keeps the JavaScript object model where the source relies
    on it: a property read [o[k]] consults the own properties first and then
    [Object.prototype], and an assignment [o[k] = v] goes through the
    [__proto__] accessor when [k] names it. *)

From stdpp Require Import base strings gmap list pretty.
From Stdlib Require Import ZArith Ascii String.

Local Open Scope Z_scope.
#[local] Set Warnings "-register-all".

(** ** Outcomes: a computation returns a value or throws *)

Inductive Outcome (A : Type) : Type :=
| Returns (a : A)
| Throws.
Arguments Returns {A} a.
Arguments Throws {A}.

#[global] Instance Outcome_ret : MRet Outcome := fun A a => Returns a.

#[global] Instance Outcome_bind : MBind Outcome := fun A B k m =>
  match m with
  | Returns a => k a
  | Throws => Throws
  end.

(** ** JavaScript values

    A request body produced by a JSON body parser holds JSON data.  Numbers
    carry an integer; the code under study never inspects the magnitude of a
    number found in the body.  A string is its sequence of code units, each
    below 256. *)

Inductive Json : Type :=
| JNull
| JBool (b : bool)
| JNum (n : Z)
| JStr (s : string)
| JArr (items : list Json)
| JObj (fields : list (string * Json)).

(** The function-valued properties every plain object inherits from
    [Object.prototype]. *)
Inductive Builtin : Type :=
| OPconstructor
| OPdefineGetter
| OPdefineSetter
| OPhasOwnProperty
| OPlookupGetter
| OPlookupSetter
| OPisPrototypeOf
| OPpropertyIsEnumerable
| OPtoString
| OPvalueOf
| OPtoLocaleString.

(** What a property read on the request body can yield: [undefined], a JSON
    value stored in the body, or something inherited from
    [Object.prototype] (one of its functions, or the prototype object itself
    through the [__proto__] getter). *)
Inductive JSVal : Type :=
| VUndefined
| VJson (j : Json)
| VBuiltin (f : Builtin)
| VObjectPrototype.

Definition builtinName (f : Builtin) : string :=
  match f with
  | OPconstructor => "constructor"
  | OPdefineGetter => "__defineGetter__"
  | OPdefineSetter => "__defineSetter__"
  | OPhasOwnProperty => "hasOwnProperty"
  | OPlookupGetter => "__lookupGetter__"
  | OPlookupSetter => "__lookupSetter__"
  | OPisPrototypeOf => "isPrototypeOf"
  | OPpropertyIsEnumerable => "propertyIsEnumerable"
  | OPtoString => "toString"
  | OPvalueOf => "valueOf"
  | OPtoLocaleString => "toLocaleString"
  end.

Definition allBuiltins : list Builtin :=
  [OPconstructor; OPdefineGetter; OPdefineSetter; OPhasOwnProperty;
   OPlookupGetter; OPlookupSetter; OPisPrototypeOf; OPpropertyIsEnumerable;
   OPtoString; OPvalueOf; OPtoLocaleString].

(** [Object.prototype[name]] for a function-valued member. *)
Definition builtinOfName (name : string) : option Builtin :=
  List.find (fun f => String.eqb (builtinName f) name) allBuiltins.

(** [Object.prototype[name]]: the eleven functions, the [__proto__] getter
    (which, called on an object whose prototype is [Object.prototype], yields
    that prototype), and [undefined] for every other name. *)
Definition objectPrototypeGet (name : string) : JSVal :=
  match builtinOfName name with
  | Some f => VBuiltin f
  | None => if String.eqb name "__proto__" then VObjectPrototype else VUndefined
  end.

(** [typeof v] *)
Definition typeof (v : JSVal) : string :=
  match v with
  | VUndefined => "undefined"
  | VJson JNull => "object"
  | VJson (JBool _) => "boolean"
  | VJson (JNum _) => "number"
  | VJson (JStr _) => "string"
  | VJson (JArr _) => "object"
  | VJson (JObj _) => "object"
  | VBuiltin _ => "function"
  | VObjectPrototype => "object"
  end.

(** [Array.isArray(v)] *)
Definition isArray (v : JSVal) : bool :=
  match v with
  | VJson (JArr _) => true
  | _ => false
  end.

(** Whether [v] is an object in the sense of the language (not a primitive). *)
Definition isObject (v : JSVal) : bool :=
  match v with
  | VJson (JArr _) | VJson (JObj _) | VBuiltin _ | VObjectPrototype => true
  | _ => false
  end.

(** The text a template literal substitutes for an integer: decimal digits
    with a leading minus sign (as JavaScript prints integers below 10^21). *)
Definition numberToString (n : Z) : string := pretty n.
Arguments numberToString : simpl never.

Definition hasField (name : string) (fields : list (string * Json)) : bool :=
  existsb (fun kv => String.eqb (fst kv) name) fields.

(** [String(v)] / [ToPropertyKey(v)].  An array joins its elements with
    commas ([null] elements print as nothing); a plain object prints as
    [[object Object]] through the inherited [toString], unless it has an own
    [toString] property: JSON data is never callable, so the conversion then
    finds no usable method and throws a [TypeError]. *)
Fixpoint jsonToString (j : Json) : Outcome string :=
  match j with
  | JNull => Returns "null"
  | JBool true => Returns "true"
  | JBool false => Returns "false"
  | JNum n => Returns (numberToString n)
  | JStr s => Returns s
  | JArr items =>
      (fix join (l : list Json) : Outcome string :=
         match l with
         | [] => Returns ""
         | x :: rest =>
             s ← match x with JNull => Returns "" | _ => jsonToString x end;
             match rest with
             | [] => Returns s
             | _ => t ← join rest; Returns (s +:+ "," +:+ t)
             end
         end) items
  | JObj fields =>
      if hasField "toString" fields then Throws else Returns "[object Object]"
  end.

Definition toPropertyKey (v : JSVal) : Outcome string :=
  match v with
  | VUndefined => Returns "undefined"
  | VJson j => jsonToString j
  | VBuiltin f => Returns ("function " +:+ builtinName f +:+ "() { [native code] }")
  | VObjectPrototype => Returns "[object Object]"
  end.

(** ** Regular expressions

    The one pattern literal of the source is embedded as a value of [Re] and
    run by a derivative matcher.  A pattern anchored with [^] and [$] (and
    without flags) accepts a string exactly when the whole string matches. *)

Inductive Re : Type :=
| ReVoid
| ReEps
| ReClass (p : ascii -> bool)
| ReCat (r s : Re)
| ReAlt (r s : Re)
| ReStar (r : Re).

(** [r+] *)
Definition RePlus (r : Re) : Re := ReCat r (ReStar r).

Fixpoint nullable (r : Re) : bool :=
  match r with
  | ReVoid => false
  | ReEps => true
  | ReClass _ => false
  | ReCat r s => nullable r && nullable s
  | ReAlt r s => nullable r || nullable s
  | ReStar _ => true
  end.

Fixpoint deriv (c : ascii) (r : Re) : Re :=
  match r with
  | ReVoid => ReVoid
  | ReEps => ReVoid
  | ReClass p => if p c then ReEps else ReVoid
  | ReCat r s =>
      if nullable r then ReAlt (ReCat (deriv c r) s) (deriv c s)
      else ReCat (deriv c r) s
  | ReAlt r s => ReAlt (deriv c r) (deriv c s)
  | ReStar r => ReCat (deriv c r) (ReStar r)
  end.

Fixpoint reMatch (r : Re) (s : string) : bool :=
  match s with
  | EmptyString => nullable r
  | String c s' => reMatch (deriv c r) s'
  end.

(** The class [\s] on code units below 256: tab, line feed, vertical tab,
    form feed, carriage return, space and no-break space. *)
Definition isWhitespace (c : ascii) : bool :=
  let n := nat_of_ascii c in
  ((9 <=? n)%nat && (n <=? 13)%nat) || (n =? 32)%nat || (n =? 160)%nat.

(** [[^\s@]] *)
Definition notSpaceNorAt (c : ascii) : bool :=
  negb (isWhitespace c) && negb (Ascii.eqb c "@").

Definition isChar (d : ascii) (c : ascii) : bool := Ascii.eqb c d.

(** [/^[^\s@]+@[^\s@]+\.[^\s@]+$/] *)
Definition emailPattern : Re :=
  ReCat (RePlus (ReClass notSpaceNorAt))
    (ReCat (ReClass (isChar "@"))
       (ReCat (RePlus (ReClass notSpaceNorAt))
          (ReCat (ReClass (isChar "."))
             (RePlus (ReClass notSpaceNorAt))))).

(** [pattern.test(val)] for a [val] already known to be a string. *)
Definition reTest (pattern : Re) (val : JSVal) : bool :=
  match val with
  | VJson (JStr s) => reMatch pattern s
  | _ => false
  end.

(** ** Objects: the request body and [validatedData] *)

(** [req.body[key]]: an own property of the parsed body, else whatever
    [Object.prototype] provides under that name. *)
Definition bodyGet (body : gmap string Json) (key : string) : JSVal :=
  match body !! key with
  | Some j => VJson j
  | None => objectPrototypeGet key
  end.

(** An object created by the literal [{}]: its own properties and its
    prototype (initially [Object.prototype]). *)
Record JSObject : Type := mkObject {
  own : gmap string JSVal;
  proto : JSVal
}.

Definition emptyObject : JSObject := {| own := ∅; proto := VObjectPrototype |}.

(** Whether the prototype [p] carries an own data property [name]; only a
    JSON object can (the name of interest is [__proto__], which
    [Object.prototype] holds as an accessor and arrays do not hold). *)
Definition protoHasOwnData (p : JSVal) (name : string) : bool :=
  match p with
  | VJson (JObj fields) => hasField name fields
  | _ => false
  end.

(** [o[key] = value] on such an object.  The assignment defines an own
    property, except that for the name [__proto__], when neither the object
    nor its prototype holds that name as a data property, it runs the
    inherited setter: an object value becomes the prototype and any other
    value is ignored. *)
Definition setProperty (o : JSObject) (key : string) (value : JSVal) : JSObject :=
  if String.eqb key "__proto__"
     && negb (bool_decide (is_Some (own o !! key)))
     && negb (protoHasOwnData (proto o) key)
  then
    if isObject value then {| own := own o; proto := value |} else o
  else {| own := <[key := value]> (own o); proto := proto o |}.

(** ** The source: [src/index.js] *)

Definition HTTP_STATUS_OK : Z := 200.
Definition HTTP_STATUS_BAD_REQUEST : Z := 400.

(** A validation rule.  [type] is [None] when the rule omits it; [min] and
    [max] are integers; [regex] stands for [regex.test] of a pattern without
    the global or sticky flag; [customValidator] is a function that returns
    an error message or [undefined], or throws.  [None] in the last four
    fields is [undefined]. *)
Record Rule : Type := mkRule {
  key : string;
  type : option string;
  required : bool;
  min : option Z;
  max : option Z;
  regex : option (JSVal -> Outcome bool);
  customValidator : option (JSVal -> Outcome (option string))
}.

(** [isPresent]: [value !== undefined && value !== null && value !== ""] *)
Definition isPresent (value : JSVal) : bool :=
  match value with
  | VUndefined => false
  | VJson JNull => false
  | VJson (JStr "") => false
  | _ => true
  end.

(** The text of [type] as a property key and inside a template literal. *)
Definition typeText (type : option string) : string :=
  match type with
  | Some s => s
  | None => "undefined"
  end.

(** [type === s] *)
Definition typeIs (type : option string) (s : string) : bool :=
  match type with
  | Some t => String.eqb t s
  | None => false
  end.

(** The object literal [typeValidators] of [validateType]. *)
Definition typeValidators : list (string * (JSVal -> bool)) :=
  [ ("string", fun val => String.eqb (typeof val) "string");
    ("number", fun val => String.eqb (typeof val) "number");
    ("boolean", fun val => String.eqb (typeof val) "boolean");
    ("array", fun val => isArray val);
    ("object", fun val => String.eqb (typeof val) "object" && negb (isArray val));
    ("email", fun val => String.eqb (typeof val) "string" && reTest emailPattern val);
    ("custom-regex", fun _ => true);
    ("custom-function", fun _ => true) ]%string.

Definition ownValidator (name : string) : option (JSVal -> bool) :=
  snd <$> List.find (fun kv => String.eqb (fst kv) name) typeValidators.

(** Truthiness of [Object.prototype.f.call(typeValidators, value)]:
    [constructor], [toString], [toLocaleString] and [valueOf] return an
    object or a non-empty string; [isPrototypeOf] returns [false];
    [hasOwnProperty] and [propertyIsEnumerable] convert [value] to a
    property key and look it up among the eight own entries;
    [__lookupGetter__] and [__lookupSetter__] find an accessor only under
    [__proto__]; [__defineGetter__] and [__defineSetter__] throw for want of
    a callable second argument. *)
Definition callInherited (f : Builtin) (value : JSVal) : Outcome bool :=
  match f with
  | OPconstructor | OPtoString | OPtoLocaleString | OPvalueOf => Returns true
  | OPisPrototypeOf => Returns false
  | OPhasOwnProperty | OPpropertyIsEnumerable =>
      k ← toPropertyKey value;
      Returns (bool_decide (is_Some (ownValidator k)))
  | OPlookupGetter | OPlookupSetter =>
      k ← toPropertyKey value;
      Returns (String.eqb k "__proto__")
  | OPdefineGetter | OPdefineSetter => Throws
  end.

(** Truthiness of [typeValidators[type]?.(value)]. *)
Definition callTypeValidator (type : option string) (value : JSVal) : Outcome bool :=
  match ownValidator (typeText type) with
  | Some validator => Returns (validator value)
  | None =>
      match objectPrototypeGet (typeText type) with
      | VUndefined => Returns false
      | VBuiltin f => callInherited f value
      | _ => Throws
      end
  end.

(** [validateType(key, value, type, errors)]: the returned flag and the
    [errors] array after the call. *)
Definition validateType (key : string) (value : JSVal) (type : option string)
    (errors : list string) : Outcome (bool * list string) :=
  ok ← callTypeValidator type value;
  if negb ok then
    Returns (false, errors ++ [key +:+ " should be a valid " +:+ typeText type])
  else Returns (true, errors).

(** [type === "string" || type === "array"] *)
Definition hasLength (type : option string) : bool :=
  typeIs type "string" || typeIs type "array".

(** [value.length], read by the source only for a rule of type [string] or
    [array] whose type check has accepted the value. *)
Definition lengthOf (value : JSVal) : option Z :=
  match value with
  | VJson (JStr s) => Some (Z.of_nat (String.length s))
  | VJson (JArr items) => Some (Z.of_nat (List.length items))
  | _ => None
  end.

(** [value.length < min] *)
Definition lengthBelow (value : JSVal) (min : Z) : bool :=
  match lengthOf value with
  | Some len => len <? min
  | None => false
  end.

(** [value.length > max] *)
Definition lengthAbove (value : JSVal) (max : Z) : bool :=
  match lengthOf value with
  | Some len => len >? max
  | None => false
  end.

(** The message of the first length check. *)
Definition minMessage (key : string) (type : option string) (min : Z) : string :=
  if typeIs type "string"
  then key +:+ " should have at least " +:+ numberToString min +:+ " characters"
  else " " +:+ key +:+ " should have at least " +:+ numberToString min +:+ " items".

(** The message of the second length check. *)
Definition maxMessage (key : string) (type : option string) (max : Z) : string :=
  if typeIs type "string"
  then key +:+ " should have at most " +:+ numberToString max +:+ " characters"
  else key +:+ " should have at most " +:+ numberToString max +:+ " items;".

(** [validateValue(key, value, type, {min, max, regex, customValidator},
    errors, validatedData)]: the [errors] array and the [validatedData]
    object after the call. *)
Definition validateValue (key : string) (value : JSVal) (type : option string)
    (min max : option Z)
    (regex : option (JSVal -> Outcome bool))
    (customValidator : option (JSVal -> Outcome (option string)))
    (errors : list string) (validatedData : JSObject)
  : Outcome (list string * JSObject) :=
  (* Length/size validations for strings and arrays *)
  let errors :=
    match min with
    | Some m =>
        if hasLength type && lengthBelow value m
        then errors ++ [minMessage key type m] else errors
    | None => errors
    end in
  let errors :=
    match max with
    | Some m =>
        if hasLength type && lengthAbove value m
        then errors ++ [maxMessage key type m] else errors
    | None => errors
    end in
  (* Regex validation *)
  errors ←
    match regex with
    | Some test =>
        if typeIs type "custom-regex" then
          matched ← test value;
          if negb matched then Returns (errors ++ [key +:+ " is invalid"])
          else Returns errors
        else Returns errors
    | None => Returns errors
    end;
  (* Custom validation function *)
  errors ←
    match customValidator with
    | Some validator =>
        customError ← validator value;
        match customError with
        | Some message =>
            if String.eqb message "" then Returns errors
            else Returns (errors ++ [message])
        | None => Returns errors
        end
    | None => Returns errors
    end;
  (* If no errors, add to validatedData *)
  if (List.length errors =? 0)%nat
  then Returns (errors, setProperty validatedData key value)
  else Returns (errors, validatedData).

(** The two objects the request handler creates and its callbacks mutate. *)
Record State : Type := mkState {
  errors : list string;
  validatedData : JSObject
}.

Definition initialState : State :=
  {| errors := []; validatedData := emptyObject |}.

(** The callback that [rules.forEach] runs on one rule. *)
Definition checkRule (body : gmap string Json) (st : State) (rule : Rule)
  : Outcome State :=
  let value := bodyGet body (key rule) in
  (* Check for required fields *)
  if required rule && negb (isPresent value) then
    Returns {| errors := errors st ++ [key rule +:+ " is required"];
               validatedData := validatedData st |}
  (* Skip further validation if the value is not present *)
  else if negb (isPresent value) then Returns st
  else
    (* Type validation *)
    '(ok, errs) ← validateType (key rule) value (type rule) (errors st);
    if negb ok then Returns {| errors := errs; validatedData := validatedData st |}
    else
      '(errs, data) ← validateValue (key rule) value (type rule)
                        (min rule) (max rule) (regex rule) (customValidator rule)
                        errs (validatedData st);
      Returns {| errors := errs; validatedData := data |}.

(** [rules.forEach(callback)] from a given state. *)
Fixpoint forEachRule (body : gmap string Json) (rules : list Rule) (st : State)
  : Outcome State :=
  match rules with
  | [] => Returns st
  | rule :: rest => st' ← checkRule body st rule; forEachRule body rest st'
  end.

(** What the handler does to the outside: it sends a response, or it stores
    a new body on the request and calls [next]. *)
Record Payload : Type := mkPayload {
  status : Z;
  message : list string
}.

Inductive Action : Type :=
| Respond (statusCode : Z) (payload : Payload)
| Next (newBody : JSObject).

(** [validateRequestBody(rules)(req, res, next)] with [req.body = body]. *)
Definition validateRequestBody (rules : list Rule) (body : gmap string Json)
  : Outcome Action :=
  st ← forEachRule body rules initialState;
  if (0 <? List.length (errors st))%nat then
    Returns (Respond HTTP_STATUS_OK
               {| status := HTTP_STATUS_BAD_REQUEST; message := errors st |})
  else Returns (Next (validatedData st)).

(** ** What one rule contributes

    The messages a call appends do not depend on the messages already
    collected, so they can be named on their own.  The functions below
    restate the three helpers message by message; the lemmas that follow
    prove them equal to the embedded code. *)

(** The messages of the two length checks of [validateValue]. *)
Definition lengthMessages (key : string) (value : JSVal) (type : option string)
    (min max : option Z) : list string :=
  match min with
  | Some m =>
      if hasLength type && lengthBelow value m then [minMessage key type m] else []
  | None => []
  end ++
  match max with
  | Some m =>
      if hasLength type && lengthAbove value m then [maxMessage key type m] else []
  | None => []
  end.

(** The message of the pattern check of [validateValue]. *)
Definition regexMessages (key : string) (value : JSVal) (type : option string)
    (regex : option (JSVal -> Outcome bool)) : Outcome (list string) :=
  match regex with
  | Some test =>
      if typeIs type "custom-regex" then
        matched ← test value;
        Returns (if (matched : bool) then [] else [key +:+ " is invalid"])
      else Returns []
  | None => Returns []
  end.

(** The message of the custom validator. *)
Definition customMessages (value : JSVal)
    (customValidator : option (JSVal -> Outcome (option string)))
  : Outcome (list string) :=
  match customValidator with
  | Some validator =>
      customError ← validator value;
      Returns match (customError : option string) with
              | Some message => if String.eqb message "" then [] else [message]
              | None => []
              end
  | None => Returns []
  end.

(** All the messages one call of [validateValue] appends. *)
Definition valueMessages (key : string) (value : JSVal) (type : option string)
    (min max : option Z)
    (regex : option (JSVal -> Outcome bool))
    (customValidator : option (JSVal -> Outcome (option string)))
  : Outcome (list string) :=
  fromRegex ← regexMessages key value type regex;
  fromCustom ← customMessages value customValidator;
  Returns (lengthMessages key value type min max ++ fromRegex ++ fromCustom).

(** The messages the evaluation of one rule appends. *)
Definition ruleMessages (body : gmap string Json) (rule : Rule)
  : Outcome (list string) :=
  st ← checkRule body initialState rule; Returns (errors st).

(** [errors.length === 0] *)
Definition noErrors (errors : list string) : bool :=
  (List.length errors =? 0)%nat.

(** ** Rules and bodies used as examples *)

(** A rule that only names a field of type [string]. *)
Definition optionalString (k : string) : Rule :=
  {| key := k; type := Some "string"; required := false;
     min := None; max := None; regex := None; customValidator := None |}.


(** [{key: k, required: true}]: a rule without a [type]. *)
Definition requiredOnly (k : string) : Rule :=
  {| key := k; type := None; required := true;
     min := None; max := None; regex := None; customValidator := None |}.

(** [{key: k, type: "string", required: true}] *)
Definition requiredString (k : string) : Rule :=
  {| key := k; type := Some "string"; required := true;
     min := None; max := None; regex := None; customValidator := None |}.

(** [[{key: "a", required: true}, {key: "b", type: "string"}]] *)
Definition orderingRules : list Rule := [requiredOnly "a"; optionalString "b"].

(** [{key: "name", type: "string", required: true, min: 3}] *)
Definition nameRule : Rule :=
  {| key := "name"; type := Some "string"; required := true;
     min := Some 3; max := None; regex := None; customValidator := None |}.

(** [{key: "age", type: "number", min: 18}] *)
Definition ageRule : Rule :=
  {| key := "age"; type := Some "number"; required := false;
     min := Some 18; max := None; regex := None; customValidator := None |}.

(** [rule] with [min] and [max] removed. *)
Definition withoutBounds (rule : Rule) : Rule :=
  {| key := key rule; type := type rule; required := required rule;
     min := None; max := None;
     regex := regex rule; customValidator := customValidator rule |}.

(** [{key: k, type: "string", min: 3}], with [required] as given. *)
Definition stringMin3 (k : string) (req : bool) : Rule :=
  {| key := k; type := Some "string"; required := req;
     min := Some 3; max := None; regex := None; customValidator := None |}.

(** [{key: k, type: "array", max: 2}], with [required] as given. *)
Definition arrayMax2 (k : string) (req : bool) : Rule :=
  {| key := k; type := Some "array"; required := req;
     min := None; max := Some 2; regex := None; customValidator := None |}.

(** [{key: "k", type: "toString"}] *)
Definition toStringRule : Rule :=
  {| key := "k"; type := Some "toString"; required := false;
     min := None; max := None; regex := None; customValidator := None |}.

(** [{key: "b", required: true}] between two rules on [a]. *)
Definition duplicateRules : list Rule :=
  [optionalString "a"; requiredOnly "b"; optionalString "a"].

(** [{key: "__proto__", type: "object"}] *)
Definition protoRule : Rule :=
  {| key := "__proto__"; type := Some "object"; required := false;
     min := None; max := None; regex := None; customValidator := None |}.

(** ** The language of a pattern

    What it means for a whole string to match a pattern, stated without
    reference to the matcher. *)

Inductive matches : Re -> string -> Prop :=
| MEps : matches ReEps ""
| MClass p c : p c = true -> matches (ReClass p) (String c "")
| MCat r1 r2 s1 s2 :
    matches r1 s1 -> matches r2 s2 -> matches (ReCat r1 r2) (s1 +:+ s2)
| MAltL r1 r2 s : matches r1 s -> matches (ReAlt r1 r2) s
| MAltR r1 r2 s : matches r2 s -> matches (ReAlt r1 r2) s
| MStarNil r : matches (ReStar r) ""
| MStarApp r s1 s2 :
    matches r s1 -> matches (ReStar r) s2 -> matches (ReStar r) (s1 +:+ s2).

(** Every code unit of [s] satisfies [p]. *)
Fixpoint allChars (p : ascii -> bool) (s : string) : bool :=
  match s with
  | EmptyString => true
  | String c s' => p c && allChars p s'
  end.

(** A non-empty run of code units that are neither whitespace nor [@]. *)
Definition isWord (w : string) : bool :=
  negb (String.eqb w "") && allChars notSpaceNorAt w.

(** ** Vocabulary for the properties of whole runs *)

(** The messages a rule reports, as a plain list (nothing when the
    evaluation throws). *)
Definition reported (body : gmap string Json) (rule : Rule) : list string :=
  match ruleMessages body rule with
  | Returns new => new
  | Throws => []
  end.

(** The one tag among [string], [number], [boolean], [array] and [object]
    that describes a JSON value ([typeof null] is ["object"]). *)
Definition structuralTag (j : Json) : string :=
  match j with
  | JNull => "object"
  | JBool _ => "boolean"
  | JNum _ => "number"
  | JStr _ => "string"
  | JArr _ => "array"
  | JObj _ => "object"
  end.

Definition structuralTags : list string :=
  ["string"; "number"; "boolean"; "array"; "object"]%string.

(** Whether some rule of the list is on key [k]. *)
Definition namesKey (rules : list Rule) (k : string) : bool :=
  existsb (fun rule => String.eqb (key rule) k) rules.

(** Whether [k] names no property of [Object.prototype]. *)
Definition plainKey (k : string) : bool :=
  match objectPrototypeGet k with
  | VUndefined => true
  | _ => false
  end.

(** [o[k]] for an object whose prototype is [Object.prototype]: what a
    later handler reads from the object once it is the request body. *)
Definition objectGet (o : JSObject) (k : string) : JSVal :=
  match own o !! k with
  | Some v => v
  | None => objectPrototypeGet k
  end.

(** The JSON members of an object, as a request body. *)
Definition jsonBody (o : JSObject) : gmap string Json :=
  omap (fun v => match v with VJson j => Some j | _ => None end) (own o).

(** [rule] with [regex] removed. *)
Definition withoutRegex (rule : Rule) : Rule :=
  {| key := key rule; type := type rule; required := required rule;
     min := min rule; max := max rule;
     regex := None; customValidator := customValidator rule |}.

(** [len] respects the bounds that are set. *)
Definition withinBounds (len : Z) (min max : option Z) : Prop :=
  (forall m, min = Some m -> m <= len) /\ (forall m, max = Some m -> len <= m).


(** [{key: "tags", type: "array", min: 1, max: 2}] *)
Definition tagsRule : Rule :=
  {| key := "tags"; type := Some "array"; required := false;
     min := Some 1; max := Some 2; regex := None; customValidator := None |}.

(** [{key: "mail", type: "email", min: 100}] *)
Definition mailRule : Rule :=
  {| key := "mail"; type := Some "email"; required := true;
     min := Some 100; max := None; regex := None; customValidator := None |}.

(** [{key: "code", type: "string", regex: /^$/}]: a pattern no present
    string matches, on a rule of type [string]. *)
Definition patternOnString : Rule :=
  {| key := "code"; type := Some "string"; required := false;
     min := None; max := None;
     regex := Some (fun _ => Returns false); customValidator := None |}.

(** [{key: "n", type: "integer"}]: a tag the table does not have. *)
Definition integerRule : Rule :=
  {| key := "n"; type := Some "integer"; required := false;
     min := None; max := None; regex := None;
     customValidator := Some (fun _ => Throws) |}.


(** What a clean evaluation of [rule] establishes about the value [value]
    found under its key. *)
Definition accepted (rule : Rule) (value : JSVal) : Prop :=
  callTypeValidator (type rule) value = Returns true /\
  (forall len,
     hasLength (type rule) = true -> lengthOf value = Some len ->
     withinBounds len (min rule) (max rule)) /\
  (forall test,
     typeIs (type rule) "custom-regex" = true -> regex rule = Some test ->
     test value = Returns true) /\
  (forall validator,
     customValidator rule = Some validator ->
     validator value = Returns None \/ validator value = Returns (Some "")).

(** [{key: k, type: "custom-function"}] *)
Definition optionalCustom (k : string) : Rule :=
  {| key := k; type := Some "custom-function"; required := false;
     min := None; max := None; regex := None; customValidator := None |}.


(** ** The email pattern on full JavaScript strings

    A JavaScript string is a sequence of 16-bit code units, and a pattern
    without the [u] flag is matched code unit by code unit.  The pattern of
    the [email] validator is embedded a second time on such sequences, with
    the whole class [\s], and run by the same derivative matcher. *)

Inductive URe : Type :=
| UVoid
| UEps
| UClass (p : N -> bool)
| UCat (r s : URe)
| UAlt (r s : URe)
| UStar (r : URe).

(** [r+] *)
Definition UPlus (r : URe) : URe := UCat r (UStar r).

Fixpoint unullable (r : URe) : bool :=
  match r with
  | UVoid => false
  | UEps => true
  | UClass _ => false
  | UCat r s => unullable r && unullable s
  | UAlt r s => unullable r || unullable s
  | UStar _ => true
  end.

Fixpoint uderiv (c : N) (r : URe) : URe :=
  match r with
  | UVoid => UVoid
  | UEps => UVoid
  | UClass p => if p c then UEps else UVoid
  | UCat r s =>
      if unullable r then UAlt (UCat (uderiv c r) s) (uderiv c s)
      else UCat (uderiv c r) s
  | UAlt r s => UAlt (uderiv c r) (uderiv c s)
  | UStar r => UCat (uderiv c r) (UStar r)
  end.

Fixpoint uMatch (r : URe) (u : list N) : bool :=
  match u with
  | [] => unullable r
  | c :: u' => uMatch (uderiv c r) u'
  end.

Inductive umatches : URe -> list N -> Prop :=
| UMEps : umatches UEps []
| UMClass p c : p c = true -> umatches (UClass p) [c]
| UMCat r1 r2 u1 u2 :
    umatches r1 u1 -> umatches r2 u2 -> umatches (UCat r1 r2) (u1 ++ u2)
| UMAltL r1 r2 u : umatches r1 u -> umatches (UAlt r1 r2) u
| UMAltR r1 r2 u : umatches r2 u -> umatches (UAlt r1 r2) u
| UMStarNil r : umatches (UStar r) []
| UMStarApp r u1 u2 :
    umatches r u1 -> umatches (UStar r) u2 -> umatches (UStar r) (u1 ++ u2).

(** The class [\s]: the white space and line terminator code points of the
    language (tab, line feed, vertical tab, form feed, carriage return,
    space, no-break space, U+1680, U+2000 to U+200A, U+2028, U+2029, U+202F,
    U+205F, U+3000 and U+FEFF). *)
Definition isWhitespaceU (c : N) : bool :=
  ((0x9 <=? c) && (c <=? 0xD) || (c =? 0x20) || (c =? 0xA0) || (c =? 0x1680)
   || (0x2000 <=? c) && (c <=? 0x200A) || (c =? 0x2028) || (c =? 0x2029)
   || (c =? 0x202F) || (c =? 0x205F) || (c =? 0x3000) || (c =? 0xFEFF))%N.

(** The code units of [@] and of the dot. *)
Definition atSign : N := 0x40.
Definition dot : N := 0x2E.

(** [[^\s@]] *)
Definition notSpaceNorAtU (c : N) : bool :=
  negb (isWhitespaceU c) && negb (c =? atSign)%N.

(** [/^[^\s@]+@[^\s@]+\.[^\s@]+$/] *)
Definition emailPatternU : URe :=
  UCat (UPlus (UClass notSpaceNorAtU))
    (UCat (UClass (N.eqb atSign))
       (UCat (UPlus (UClass notSpaceNorAtU))
          (UCat (UClass (N.eqb dot))
             (UPlus (UClass notSpaceNorAtU))))).

(** A non-empty run of code units that are neither whitespace nor [@]. *)
Definition isWordU (w : list N) : bool :=
  negb (bool_decide (w = [])) && forallb notSpaceNorAtU w.

(** The code units of a string of the embedding. *)
Fixpoint codeUnits (s : string) : list N :=
  match s with
  | EmptyString => []
  | String c s' => N_of_ascii c :: codeUnits s'
  end.
(** ** Basic facts *)

Lemma bind_Returns {A B : Type} (m : Outcome A) (k : A -> Outcome B) (b : B) :
  m ≫= k = Returns b <-> exists a, m = Returns a /\ k a = Returns b.
Proof.
  destruct m as [a|]; simpl; split.
  - intros H. exists a. split; [reflexivity | exact H].
  - intros (a' & Ha & Hk). injection Ha as ->. exact Hk.
  - discriminate.
  - intros (a' & Ha & _). discriminate.
Qed.

Lemma string_append_assoc (s1 s2 s3 : string) :
  (s1 +:+ s2) +:+ s3 = s1 +:+ (s2 +:+ s3).
Proof.
  induction s1 as [|c s1 IH]; [reflexivity|].
  change (String c ((s1 +:+ s2) +:+ s3) = String c (s1 +:+ (s2 +:+ s3))).
  f_equal. exact IH.
Qed.

Lemma noErrors_nil (l : list string) : noErrors l = true <-> l = [].
Proof. destruct l; unfold noErrors; simpl; split; congruence. Qed.

Lemma noErrors_app (l new : list string) :
  noErrors (l ++ new) = noErrors l && noErrors new.
Proof. destruct l, new; reflexivity. Qed.

Lemma isPresent_false_iff (value : JSVal) :
  isPresent value = false <->
  value = VUndefined \/ value = VJson JNull \/ value = VJson (JStr "").
Proof.
  split.
  - destruct value as [|[| | |[|]| |]| |]; simpl; intros H;
      try discriminate H; auto.
  - intros [-> | [-> | ->]]; reflexivity.
Qed.

(** [validateType] pushes at most its one message, and exactly when it
    answers [false]. *)
Lemma validateType_eq key value type errs :
  validateType key value type errs =
  ok ← callTypeValidator type value;
  Returns (ok, errs ++ if (ok : bool) then []
                       else [key +:+ " should be a valid " +:+ typeText type]).
Proof.
  unfold validateType.
  destruct (callTypeValidator type value) as [[|]|]; simpl;
    rewrite ?app_nil_r; reflexivity.
Qed.

(** [validateValue] appends [valueMessages] and records the value exactly
    when the whole list is then still empty. *)
Lemma validateValue_eq key value type mn mx rg cv errs data :
  validateValue key value type mn mx rg cv errs data =
  new ← valueMessages key value type mn mx rg cv;
  Returns (errs ++ new,
           if noErrors (errs ++ new) then setProperty data key value else data).
Proof.
  unfold validateValue, valueMessages, lengthMessages, regexMessages,
    customMessages, noErrors.
  destruct mn as [m|], mx as [M|];
    try destruct (hasLength type && lengthBelow value m);
    try destruct (hasLength type && lengthAbove value M);
    (destruct rg as [test|];
     [destruct (typeIs type "custom-regex");
      [destruct (test value) as [[|]|]|] |]);
    simpl; try reflexivity;
    (destruct cv as [validator|];
     [destruct (validator value) as [[message|]|] |]);
    simpl; try reflexivity;
    try destruct (String.eqb message "");
    simpl; rewrite ?app_nil_r, <- ?app_assoc; simpl;
    match goal with
    | |- context [(List.length ?l =? 0)%nat] =>
        destruct (List.length l =? 0)%nat; reflexivity
    end.
Qed.

(** The messages of one rule, read off the callback branch by branch. *)
Lemma ruleMessages_eq body rule :
  ruleMessages body rule =
  let value := bodyGet body (key rule) in
  if required rule && negb (isPresent value)
  then Returns [key rule +:+ " is required"]
  else if negb (isPresent value) then Returns []
  else
    ok ← callTypeValidator (type rule) value;
    if (ok : bool)
    then valueMessages (key rule) value (type rule)
           (min rule) (max rule) (regex rule) (customValidator rule)
    else Returns [key rule +:+ " should be a valid " +:+ typeText (type rule)].
Proof.
  unfold ruleMessages, checkRule. simpl.
  destruct (required rule && negb (isPresent (bodyGet body (key rule))));
    [reflexivity|].
  destruct (negb (isPresent (bodyGet body (key rule)))); [reflexivity|].
  rewrite validateType_eq.
  destruct (callTypeValidator (type rule) (bodyGet body (key rule)))
    as [[|]|]; simpl; try reflexivity.
  rewrite validateValue_eq.
  destruct (valueMessages _ _ _ _ _ _ _); reflexivity.
Qed.

(** The callback in one equation: it appends the rule's messages, and it
    records the value exactly when the value is present and the whole error
    list is still empty afterwards. *)
Lemma checkRule_eq body st rule :
  checkRule body st rule =
  new ← ruleMessages body rule;
  Returns {| errors := errors st ++ new;
             validatedData :=
               if isPresent (bodyGet body (key rule)) && noErrors (errors st ++ new)
               then setProperty (validatedData st) (key rule)
                      (bodyGet body (key rule))
               else validatedData st |}.
Proof.
  rewrite ruleMessages_eq. unfold checkRule. simpl.
  destruct st as [errs data]; simpl.
  destruct (isPresent (bodyGet body (key rule))) eqn:Hpresent;
    destruct (required rule); simpl; rewrite ?app_nil_r; try reflexivity;
    rewrite validateType_eq;
    (destruct (callTypeValidator (type rule) (bodyGet body (key rule)))
       as [[|]|]; simpl; rewrite ?app_nil_r; try reflexivity;
     [ rewrite validateValue_eq;
       destruct (valueMessages _ _ _ _ _ _ _); reflexivity
     | rewrite noErrors_app, andb_comm; reflexivity ]).
Qed.

Lemma forEachRule_app body rules1 rules2 st :
  forEachRule body (rules1 ++ rules2) st =
  st' ← forEachRule body rules1 st; forEachRule body rules2 st'.
Proof.
  revert st. induction rules1 as [|rule rules1 IH]; intros st; simpl.
  - reflexivity.
  - destruct (checkRule body st rule) as [st1|]; simpl; [apply IH | reflexivity].
Qed.

(** Once a message has been collected, a rule evaluation leaves
    [validatedData] alone and the list stays non-empty. *)
Lemma checkRule_after_error body st rule st' :
  errors st <> [] ->
  checkRule body st rule = Returns st' ->
  validatedData st' = validatedData st /\ errors st' <> [].
Proof.
  intros Herr. rewrite checkRule_eq. intros H.
  apply bind_Returns in H as (new & _ & H). injection H as <-. simpl.
  rewrite noErrors_app.
  destruct (noErrors (errors st)) eqn:Hno.
  - apply noErrors_nil in Hno. contradiction.
  - rewrite andb_false_r. split; [reflexivity|].
    intros Happ. apply app_eq_nil in Happ as [? _]. contradiction.
Qed.

Lemma forEachRule_after_error body rules st st' :
  errors st <> [] ->
  forEachRule body rules st = Returns st' ->
  validatedData st' = validatedData st /\ errors st' <> [].
Proof.
  revert st. induction rules as [|rule rules IH]; intros st Herr H; simpl in H.
  - injection H as <-. split; [reflexivity | exact Herr].
  - apply bind_Returns in H as (st1 & Hstep & Hrest).
    destruct (checkRule_after_error _ _ _ _ Herr Hstep) as [Hdata Herr1].
    destruct (IH _ Herr1 Hrest) as [Hdata' Herr'].
    split; [congruence | exact Herr'].
Qed.

(** The errors of a run are the messages of its rules, in rule order. *)
Lemma forEachRule_errors body rules st st' :
  forEachRule body rules st = Returns st' ->
  exists perRule : list (list string),
    Forall2 (fun rule new => ruleMessages body rule = Returns new) rules perRule /\
    errors st' = errors st ++ List.concat perRule.
Proof.
  revert st. induction rules as [|rule rules IH]; intros st H; simpl in H.
  - injection H as <-. exists []. split; [constructor|].
    simpl. rewrite app_nil_r. reflexivity.
  - apply bind_Returns in H as (st1 & Hstep & Hrest).
    rewrite checkRule_eq in Hstep.
    apply bind_Returns in Hstep as (new & Hnew & Hst1). injection Hst1 as <-.
    destruct (IH _ Hrest) as (perRule & Hall & Herrs). simpl in Herrs.
    exists (new :: perRule). split; [constructor; assumption|].
    simpl. rewrite Herrs, <- app_assoc. reflexivity.
Qed.

(** ** How [validatedData] grows *)

Lemma setProperty_plain o key value :
  key <> "__proto__" ->
  own (setProperty o key value) = <[key := value]> (own o).
Proof.
  intros Hne. unfold setProperty.
  destruct (String.eqb key "__proto__") eqn:Heq.
  - apply String.eqb_eq in Heq. contradiction.
  - reflexivity.
Qed.

Lemma setProperty_other o key value k :
  k <> key ->
  own (setProperty o key value) !! k = own o !! k.
Proof.
  intros Hne. unfold setProperty.
  destruct (_ && _ && _); [destruct (isObject value); reflexivity|].
  simpl. apply lookup_insert_ne. congruence.
Qed.

Lemma setProperty_keeps o key value k :
  is_Some (own o !! k) -> is_Some (own (setProperty o key value) !! k).
Proof.
  intros Hk. unfold setProperty.
  destruct (_ && _ && _); [destruct (isObject value); exact Hk|].
  simpl. apply lookup_insert_is_Some'. right. exact Hk.
Qed.

(** A rule evaluation touches at most the entry of its own key, and only
    for a present value with the error list still empty afterwards. *)
Lemma checkRule_own body st rule st' k :
  checkRule body st rule = Returns st' ->
  own (validatedData st') !! k = own (validatedData st) !! k \/
  (key rule = k /\ isPresent (bodyGet body k) = true /\ errors st' = []).
Proof.
  rewrite checkRule_eq. intros H.
  apply bind_Returns in H as (new & _ & H). injection H as <-. simpl.
  destruct (isPresent (bodyGet body (key rule))) eqn:Hpresent; simpl;
    [|left; reflexivity].
  destruct (noErrors (errors st ++ new)) eqn:Hno; [|left; reflexivity].
  destruct (decide (k = key rule)) as [->|Hne].
  - right. apply noErrors_nil in Hno. auto.
  - left. apply setProperty_other. exact Hne.
Qed.

Lemma checkRule_own_iff body st rule st' k :
  checkRule body st rule = Returns st' ->
  k <> "__proto__" ->
  (is_Some (own (validatedData st') !! k) <->
   is_Some (own (validatedData st) !! k) \/
   (key rule = k /\ isPresent (bodyGet body k) = true /\ errors st' = [])).
Proof.
  intros Hstep Hk. split.
  - intros Hsome.
    destruct (checkRule_own _ _ _ _ k Hstep) as [Heq | Hrec];
      [left; rewrite <- Heq; exact Hsome | right; exact Hrec].
  - rewrite checkRule_eq in Hstep.
    apply bind_Returns in Hstep as (new & _ & H). injection H as <-. simpl.
    intros [Hold | (Hkey & Hpresent & Herrs)].
    + destruct (_ && _); [apply setProperty_keeps|]; exact Hold.
    + subst k. rewrite Hpresent. apply noErrors_nil in Herrs. rewrite Herrs.
      simpl. rewrite setProperty_plain by exact Hk.
      rewrite lookup_insert_eq. eauto.
Qed.

Lemma forEachRule_own_iff body rules st0 st k :
  forEachRule body rules st0 = Returns st ->
  k <> "__proto__" ->
  (is_Some (own (validatedData st) !! k) <->
   is_Some (own (validatedData st0) !! k) \/
   exists before rule after st_rule,
     rules = before ++ rule :: after /\
     key rule = k /\
     isPresent (bodyGet body k) = true /\
     forEachRule body (before ++ [rule]) st0 = Returns st_rule /\
     errors st_rule = []).
Proof.
  intros Hrun Hk. revert st0 Hrun.
  induction rules as [|r rs IH]; intros st0 Hrun; simpl in Hrun.
  - injection Hrun as <-. split; [auto|].
    intros [H | (before & rule & after & st_rule & Hsplit & _)]; [exact H|].
    destruct before; discriminate Hsplit.
  - apply bind_Returns in Hrun as (st1 & Hstep & Hrest).
    rewrite (IH _ Hrest), (checkRule_own_iff _ _ _ _ _ Hstep Hk). split.
    + intros [[Hold | Hrec] | (before & rule & after & st_rule & -> & Hrule)].
      * left. exact Hold.
      * right. exists [], r, rs, st1. split; [reflexivity|].
        destruct Hrec as (? & ? & ?). simpl. rewrite Hstep. auto.
      * right. exists (r :: before), rule, after, st_rule.
        split; [reflexivity|]. destruct Hrule as (? & ? & Hpre & ?).
        simpl. rewrite Hstep. simpl. auto.
    + intros [Hold | (before & rule & after & st_rule & Hsplit & Hkey & Hpresent & Hpre & Herrs)].
      * left. left. exact Hold.
      * destruct before as [|r' before]; simpl in Hsplit, Hpre;
          injection Hsplit as -> ->; rewrite Hstep in Hpre; simpl in Hpre.
        -- injection Hpre as ->. left. right. auto.
        -- right. exists before, rule, after, st_rule. auto.
Qed.


(** ** C1: which keys reach the sanitized body *)

Module Invariant.


(** Why the amended statement speaks of "some rule": with rules
    [[{key: "a", type: "string"}, {key: "b", required: true},
    {key: "a", type: "string"}]] and body [{a: "x"}], the first rule records
    [a]; when the third rule, also on [a], completes, the error list holds
    ["b is required"], and [a] is still in the sanitized body. *)
Lemma recorded_by_earlier_duplicate :
  let body : gmap string Json := {[ "a" := JStr "x" ]} in
  exists st,
    forEachRule body duplicateRules initialState = Returns st /\
    errors st = ["b is required"] /\
    own (validatedData st) !! "a" = Some (VJson (JStr "x")).
Proof.
  eexists. split; [vm_compute; reflexivity|]. split; reflexivity.
Qed.

(** Why the amended statement leaves [__proto__] out: with rule
    [{key: "__proto__", type: "object"}] and a body parsed from
    [{"__proto__": {"x": 1}}], the rule completes without error, and the
    assignment [validatedData["__proto__"] = value] replaces the prototype
    of [validatedData] instead of defining a property. *)
Lemma proto_key_sets_prototype :
  let body : gmap string Json := {[ "__proto__" := JObj [("x", JNum 1)] ]} in
  forEachRule body [protoRule] initialState =
    Returns {| errors := [];
               validatedData :=
                 {| own := ∅; proto := VJson (JObj [("x", JNum 1)]) |} |}.
Proof. vm_compute. reflexivity. Qed.



End Invariant.

(** ** C2: the ordering example *)

Module Ordering.

(** A rule without a [type] rejects every present value: the lookup
    [typeValidators[undefined]] finds nothing. *)
Lemma requiredOnly_messages body k :
  ruleMessages body (requiredOnly k) =
  Returns [if isPresent (bodyGet body k)
           then k +:+ " should be a valid undefined"
           else k +:+ " is required"].
Proof.
  rewrite ruleMessages_eq. simpl.
  destruct (isPresent (bodyGet body k)); reflexivity.
Qed.

(** With the rule list of the example, no body at all gets [a] recorded. *)
Lemma orderingRules_never_record_a body st :
  forEachRule body orderingRules initialState = Returns st ->
  validatedData st = emptyObject /\ errors st <> [].
Proof.
  unfold orderingRules. simpl. intros H.
  apply bind_Returns in H as (st1 & Hstep & Hrest).
  rewrite checkRule_eq, requiredOnly_messages in Hstep. simpl in Hstep.
  rewrite andb_false_r in Hstep. injection Hstep as <-.
  apply bind_Returns in Hrest as (st2 & Hstep2 & Hst). injection Hst as <-.
  apply checkRule_after_error in Hstep2; [exact Hstep2 | discriminate].
Qed.

(** C2, second half refuted as worded.  Rules
    [[{key: "a", required: true}, {key: "b", type: "string"}]] and body
    [{a: "x", b: 5}]: [a] is supplied, [b] fails its type check, and [a] is
    not in the sanitized body, since the rule for [a] declares no type and
    so reports ["a should be a valid undefined"]. *)
Lemma supplied_a_not_sanitized :
  let body : gmap string Json := <[ "a" := JStr "x" ]> {[ "b" := JNum 5 ]} in
  isPresent (bodyGet body "a") = true /\
  validateType "b" (bodyGet body "b") (Some "string") [] =
    Returns (false, ["b should be a valid string"]) /\
  exists st,
    forEachRule body orderingRules initialState = Returns st /\
    errors st = ["a should be a valid undefined"; "b should be a valid string"] /\
    ~ is_Some (own (validatedData st) !! "a").
Proof.
  simpl. split; [reflexivity|]. split; [reflexivity|].
  eexists. split; [vm_compute; reflexivity|]. split; [reflexivity|].
  simpl. intros [v Hv]. discriminate Hv.
Qed.

(** C2, amended.  First half as worded: with rules
    [[{key: "a", required: true}, {key: "b", type: "string"}]] and body
    [{b: "ok"}] the handler rejects with ["a is required"] and [b] is not in
    the sanitized body.  Conversely, for any rule [ruleA] on key [a] whose
    evaluation finds a present value and reports nothing (it has to declare
    a type the value satisfies), followed by [{key: "b", type: "string"}],
    and a body whose [b] is present and not a string: [a] is in the
    sanitized body with its value, and the handler rejects with
    ["b should be a valid string"]. *)
Theorem ordering_quirk (ruleA : Rule) (body : gmap string Json) (st1 : State) :
  key ruleA = "a" ->
  isPresent (bodyGet body "a") = true ->
  checkRule body initialState ruleA = Returns st1 ->
  errors st1 = [] ->
  isPresent (bodyGet body "b") = true ->
  typeof (bodyGet body "b") <> "string" ->
  (validateRequestBody orderingRules {[ "b" := JStr "ok" ]} =
     Returns (Respond 200 {| status := 400; message := ["a is required"] |}) /\
   exists st,
     forEachRule {[ "b" := JStr "ok" ]} orderingRules initialState = Returns st /\
     In "a is required" (errors st) /\
     own (validatedData st) !! "b" = None) /\
  (exists st,
     forEachRule body [ruleA; optionalString "b"] initialState = Returns st /\
     own (validatedData st) !! "a" = Some (bodyGet body "a") /\
     validateRequestBody [ruleA; optionalString "b"] body =
       Returns (Respond 200
                  {| status := 400; message := ["b should be a valid string"] |})).
Proof.
  intros Hkey HpresentA HstepA HcleanA HpresentB HtypeB. split.
  - split; [vm_compute; reflexivity|].
    eexists. split; [vm_compute; reflexivity|].
    split; [left; reflexivity | reflexivity].
  - assert (HownA : own (validatedData st1) !! "a" = Some (bodyGet body "a")).
    { rewrite checkRule_eq in HstepA.
      apply bind_Returns in HstepA as (new & _ & Hst).
      injection Hst as Hst. subst st1.
      simpl in HcleanA |- *. rewrite Hkey, HpresentA, HcleanA. simpl.
      apply lookup_insert_eq. }
    assert (HstepB : checkRule body st1 (optionalString "b") =
              Returns {| errors := ["b should be a valid string"];
                         validatedData := validatedData st1 |}).
    { rewrite checkRule_eq, ruleMessages_eq. simpl. rewrite HpresentB. simpl.
      unfold callTypeValidator. simpl.
      destruct (String.eqb (typeof (bodyGet body "b")) "string") eqn:Heq;
        [apply String.eqb_eq in Heq; contradiction|].
      simpl. rewrite HcleanA. reflexivity. }
    eexists. split; [|split].
    + simpl. rewrite HstepA. simpl. rewrite HstepB. reflexivity.
    + exact HownA.
    + unfold validateRequestBody. simpl. rewrite HstepA. simpl.
      rewrite HstepB. reflexivity.
Qed.

Lemma ordering_quirk_witness :
  let body : gmap string Json := <[ "a" := JStr "x" ]> {[ "b" := JNum 5 ]} in
  exists st,
    forEachRule body [requiredString "a"; optionalString "b"] initialState =
      Returns st /\
    own (validatedData st) !! "a" = Some (bodyGet body "a") /\
    validateRequestBody [requiredString "a"; optionalString "b"] body =
      Returns (Respond 200
                 {| status := 400; message := ["b should be a valid string"] |}).
Proof.
  intros body.
  refine (proj2 (ordering_quirk (requiredString "a") body
                   {| errors := [];
                      validatedData :=
                        setProperty emptyObject "a" (VJson (JStr "x")) |}
                   _ _ _ _ _ _)).
  - reflexivity.
  - reflexivity.
  - vm_compute. reflexivity.
  - reflexivity.
  - reflexivity.
  - vm_compute. discriminate.
Defined.

End Ordering.

(** ** C3: the outcome of a request *)

Module Response.

(** C3.  When the pass over the rules completes: a non-empty error list
    makes the handler send transport status 200 with the payload
    [{status: 400, message: errors}]; an empty one makes it store
    [validatedData] as the new body and call [next].  The errors are the
    messages of the rules, concatenated in rule order. *)
Theorem request_outcome rules body st :
  forEachRule body rules initialState = Returns st ->
  (errors st <> [] ->
   validateRequestBody rules body =
     Returns (Respond 200 {| status := 400; message := errors st |})) /\
  (errors st = [] ->
   validateRequestBody rules body = Returns (Next (validatedData st))) /\
  (exists perRule : list (list string),
     Forall2 (fun rule new => ruleMessages body rule = Returns new) rules perRule /\
     errors st = List.concat perRule).
Proof.
  intros Hrun. unfold validateRequestBody. rewrite Hrun. simpl.
  split; [|split].
  - intros Herr. destruct (errors st); [contradiction | reflexivity].
  - intros ->. reflexivity.
  - apply forEachRule_errors in Hrun. exact Hrun.
Qed.

Lemma request_outcome_witness :
  validateRequestBody [nameRule] {[ "name" := JStr "Al" ]} =
    Returns (Respond 200
               {| status := 400;
                  message := ["name should have at least 3 characters"] |}).
Proof.
  refine (proj1 (request_outcome [nameRule] {[ "name" := JStr "Al" ]}
                   {| errors := ["name should have at least 3 characters"];
                      validatedData := emptyObject |} _) _).
  - vm_compute. reflexivity.
  - discriminate.
Defined.

End Response.

(** ** C4: bounds on a rule of type number *)

Module NumberBounds.

(** The two length checks apply to no type but [string] and [array]. *)
Lemma lengthMessages_other_type key value type mn mx :
  hasLength type = false ->
  lengthMessages key value type mn mx = [].
Proof.
  intros H. unfold lengthMessages. rewrite H.
  destruct mn, mx; reflexivity.
Qed.

(** C4.  For a rule of type [number] and a number found in the body, the
    messages of the rule are those of its custom validator and nothing
    else, whatever [min] and [max] are; the rule behaves as the same rule
    without bounds. *)
Theorem number_bounds_unused rule body st n :
  type rule = Some "number" ->
  body !! key rule = Some (JNum n) ->
  ruleMessages body rule =
    customMessages (VJson (JNum n)) (customValidator rule) /\
  checkRule body st rule = checkRule body st (withoutBounds rule).
Proof.
  intros Htype Hvalue.
  assert (Hmsg : forall r, type r = Some "number" -> key r = key rule ->
            ruleMessages body r =
            customMessages (VJson (JNum n)) (customValidator r)).
  { intros r Ht Hk. rewrite ruleMessages_eq. unfold bodyGet.
    rewrite Hk, Hvalue, Ht. simpl. rewrite andb_false_r.
    unfold valueMessages, regexMessages.
    rewrite lengthMessages_other_type by reflexivity.
    destruct (regex r); simpl;
      destruct (customMessages _ _); reflexivity. }
  split; [apply Hmsg; [exact Htype | reflexivity]|].
  rewrite !checkRule_eq, !Hmsg; try assumption; reflexivity.
Qed.

Lemma number_bounds_unused_witness :
  ruleMessages {[ "age" := JNum 7 ]} ageRule = Returns [].
Proof.
  refine (proj1 (number_bounds_unused ageRule {[ "age" := JNum 7 ]}
                   initialState 7 _ _)).
  - reflexivity.
  - reflexivity.
Defined.

End NumberBounds.

(** ** C5 and C6: absent values *)

Module Absent.

(** C5.  For a rule with [required] set whose value in the body is
    [undefined], [null] or the empty string, the callback appends
    ["{key} is required"], once, changes nothing else and consults none of
    [type], [min], [max], [regex] and [customValidator]; the message is in
    the error list of any completed run over a list holding the rule. *)
Theorem required_absent rule body :
  required rule = true ->
  bodyGet body (key rule) = VUndefined \/
  bodyGet body (key rule) = VJson JNull \/
  bodyGet body (key rule) = VJson (JStr "") ->
  (forall st,
     checkRule body st rule =
     Returns {| errors := errors st ++ [key rule +:+ " is required"];
                validatedData := validatedData st |}) /\
  ruleMessages body rule = Returns [key rule +:+ " is required"] /\
  (forall before after st,
     forEachRule body (before ++ rule :: after) initialState = Returns st ->
     In (key rule +:+ " is required") (errors st)).
Proof.
  intros Hreq Habsent. apply isPresent_false_iff in Habsent.
  assert (Hmsg : ruleMessages body rule = Returns [key rule +:+ " is required"]).
  { rewrite ruleMessages_eq. simpl. rewrite Hreq, Habsent. reflexivity. }
  split; [|split].
  - intros st. rewrite checkRule_eq, Hmsg. simpl. rewrite Habsent. reflexivity.
  - exact Hmsg.
  - intros before after st Hrun.
    apply forEachRule_errors in Hrun as (perRule & Hall & ->). simpl.
    apply Forall2_app_inv_l in Hall as (per1 & per2 & _ & Hall & ->).
    apply Forall2_cons_inv_l in Hall as (new & per3 & Hnew & _ & ->).
    rewrite Hmsg in Hnew. injection Hnew as <-.
    rewrite concat_app. simpl. apply in_or_app. right. left. reflexivity.
Qed.

Lemma required_absent_witness :
  ruleMessages ∅ (requiredString "a") = Returns ["a" +:+ " is required"].
Proof.
  refine (proj1 (proj2 (required_absent (requiredString "a") ∅ _ _))).
  - reflexivity.
  - left. reflexivity.
Defined.



End Absent.

(** ** C7: the length examples *)

Module Lengths.

Lemma bodyGet_singleton k j : bodyGet {[ k := j ]} k = VJson j.
Proof. unfold bodyGet. rewrite lookup_singleton_eq. reflexivity. Qed.

Lemma numberToString_2 : numberToString 2 = "2".
Proof. vm_compute. reflexivity. Qed.

Lemma numberToString_3 : numberToString 3 = "3".
Proof. vm_compute. reflexivity. Qed.

(** C7.  A rule of type [string] with [min] 3: the value ["ab"] makes the
    callback append exactly ["{key} should have at least 3 characters"] and
    the value ["abc"] yields no message.  A rule of type [array] with [max]
    2: the value [[1,2,3]] yields one message, which contains
    ["at most 2 items"]. *)
Theorem length_examples (k : string) (req : bool) (st : State) :
  checkRule {[ k := JStr "ab" ]} st (stringMin3 k req) =
    Returns {| errors := errors st ++ [k +:+ " should have at least 3 characters"];
               validatedData := validatedData st |} /\
  ruleMessages {[ k := JStr "abc" ]} (stringMin3 k req) = Returns [] /\
  ruleMessages {[ k := JArr [JNum 1; JNum 2; JNum 3] ]} (arrayMax2 k req) =
    Returns [k +:+ " should have at most 2 items;"] /\
  k +:+ " should have at most 2 items;" =
    (k +:+ " should have ") +:+ "at most 2 items" +:+ ";".
Proof.
  split; [|split; [|split]].
  - rewrite checkRule_eq, ruleMessages_eq. simpl.
    rewrite bodyGet_singleton. simpl. rewrite andb_false_r. simpl.
    unfold minMessage. simpl. rewrite numberToString_3. simpl.
    rewrite noErrors_app, andb_false_r. reflexivity.
  - rewrite ruleMessages_eq. simpl.
    rewrite bodyGet_singleton. simpl. rewrite andb_false_r. reflexivity.
  - rewrite ruleMessages_eq. simpl.
    rewrite bodyGet_singleton. simpl. rewrite andb_false_r. simpl.
    unfold valueMessages, lengthMessages, maxMessage. simpl.
    rewrite numberToString_2. reflexivity.
  - rewrite string_append_assoc. reflexivity.
Qed.

End Lengths.

(** ** C8: the empty rule list *)

Module EmptyRules.

(** C8.  With no rules the pass leaves the error list empty and the handler
    stores the empty object as the new body and calls [next], for every
    body. *)
Theorem no_rules_continue (body : gmap string Json) :
  forEachRule body [] initialState =
    Returns {| errors := []; validatedData := emptyObject |} /\
  validateRequestBody [] body = Returns (Next emptyObject) /\
  own emptyObject = ∅.
Proof. repeat split. Qed.

End EmptyRules.

(** ** C9: type tags outside the table *)

Module UnknownType.

(** A tag that names neither an entry of [typeValidators] nor a property of
    [Object.prototype] fails the type check with the documented message. *)
Lemma validateType_unknown key value tag errs :
  ownValidator tag = None ->
  objectPrototypeGet tag = VUndefined ->
  validateType key value (Some tag) errs =
  Returns (false, errs ++ [key +:+ " should be a valid " +:+ tag]).
Proof.
  intros Hown Hproto. unfold validateType, callTypeValidator. simpl.
  rewrite Hown, Hproto. reflexivity.
Qed.

(** C9 at the tag [toString], which is none of the eight supported tags:
    [typeValidators["toString"]] is the function inherited from
    [Object.prototype], its result is truthy, so [validateType] answers
    [true] and appends nothing; the value goes on to [validateValue] and
    into the sanitized body, and the handler calls [next]. *)
Theorem inherited_tag_accepted :
  ownValidator "toString" = None /\
  validateType "k" (VJson (JStr "x")) (Some "toString") [] = Returns (true, []) /\
  validateRequestBody [toStringRule] {[ "k" := JStr "x" ]} =
    Returns (Next {| own := {[ "k" := VJson (JStr "x") ]};
                     proto := VObjectPrototype |}).
Proof.
  split; [reflexivity|]. split; [reflexivity|]. vm_compute. reflexivity.
Qed.

End UnknownType.

(** ** C10: the wording of the array messages *)

Module ArrayMessages.

(** C10.  For a rule of type [array] and an array value, when the custom
    validator returns, [validateValue] appends: for a length below [min],
    the key preceded by one space and followed by
    [" should have at least {min} items"]; for a length above [max], the key
    followed by [" should have at most {max} items;"]; then the validator's
    message.  The first message starts with a space and the second ends with
    a semicolon, unlike the messages for strings. *)
Theorem array_wording key items mn mx rg cv errs data fromCustom :
  customMessages (VJson (JArr items)) cv = Returns fromCustom ->
  let len := Z.of_nat (List.length items) in
  let fromMin :=
    match mn with
    | Some m =>
        if len <? m
        then [" " +:+ key +:+ " should have at least " +:+ numberToString m +:+ " items"]
        else []
    | None => []
    end in
  let fromMax :=
    match mx with
    | Some m =>
        if len >? m
        then [key +:+ " should have at most " +:+ numberToString m +:+ " items;"]
        else []
    | None => []
    end in
  let errs' := errs ++ fromMin ++ fromMax ++ fromCustom in
  validateValue key (VJson (JArr items)) (Some "array") mn mx rg cv errs data =
    Returns (errs',
             if noErrors errs'
             then setProperty data key (VJson (JArr items)) else data) /\
  (forall m,
     String.get 0 (minMessage key (Some "array") m) = Some " "%char /\
     minMessage key (Some "string") m =
       key +:+ " should have at least " +:+ numberToString m +:+ " characters") /\
  (forall m,
     maxMessage key (Some "array") m =
       (key +:+ " should have at most " +:+ numberToString m +:+ " items") +:+ ";" /\
     maxMessage key (Some "string") m =
       key +:+ " should have at most " +:+ numberToString m +:+ " characters").
Proof.
  intros Hcustom len fromMin fromMax errs'. split; [|split].
  - rewrite validateValue_eq. unfold valueMessages, regexMessages.
    rewrite Hcustom.
    replace (typeIs (Some "array") "custom-regex") with false by reflexivity.
    assert (Hlen : lengthMessages key (VJson (JArr items)) (Some "array") mn mx
                   = fromMin ++ fromMax) by reflexivity.
    destruct rg; simpl; rewrite Hlen, <- app_assoc; reflexivity.
  - intros m. split; reflexivity.
  - intros m. split; [|reflexivity].
    unfold maxMessage. simpl.
    rewrite !string_append_assoc. reflexivity.
Qed.

Lemma array_wording_witness :
  validateValue "l" (VJson (JArr [JNum 1; JNum 2; JNum 3])) (Some "array")
    (Some 5) (Some 2) None None [] emptyObject =
  Returns ([" l should have at least 5 items"; "l should have at most 2 items;"],
           emptyObject).
Proof.
  refine (proj1 (array_wording "l" [JNum 1; JNum 2; JNum 3] (Some 5) (Some 2)
                   None None [] emptyObject [] _)).
  reflexivity.
Defined.

End ArrayMessages.

(** ** Keys that name a property of [Object.prototype]

    A key missing from the body is not always read as [undefined]. *)

Module InheritedKeys.

(** With the empty body, [req.body["toString"]] is the inherited function,
    which [isPresent] accepts: a required rule on that key reports no
    missing field, and goes on to the type check. *)
Lemma missing_key_read_as_function :
  bodyGet ∅ "toString" = VBuiltin OPtoString /\
  isPresent (bodyGet ∅ "toString") = true /\
  ruleMessages ∅ (requiredString "toString") =
    Returns ["toString should be a valid string"].
Proof. repeat split. Qed.

(** A key that names no property of [Object.prototype] and is missing from
    the body is read as [undefined]. *)
Lemma missing_key_read_as_undefined (body : gmap string Json) (k : string) :
  body !! k = None ->
  objectPrototypeGet k = VUndefined ->
  bodyGet body k = VUndefined.
Proof. intros Hbody Hproto. unfold bodyGet. rewrite Hbody. exact Hproto. Qed.

(** C6 at keys that the body does not hold: with the empty body, the
    optional rule [{key: "toString", type: "string"}] is not skipped, the
    read [req.body["toString"]] gives the inherited function and the handler
    rejects with ["toString should be a valid string"]; and the optional
    rule [{key: "constructor", type: "custom-function"}] puts the inherited
    function into the sanitized body, with which the handler calls [next]. *)
Theorem inherited_key_not_skipped :
  (∅ : gmap string Json) !! "toString" = None /\
  (∅ : gmap string Json) !! "constructor" = None /\
  validateRequestBody [optionalString "toString"] ∅ =
    Returns (Respond 200
               {| status := 400;
                  message := ["toString should be a valid string"] |}) /\
  validateRequestBody [optionalCustom "constructor"] ∅ =
    Returns (Next {| own := {[ "constructor" := VBuiltin OPconstructor ]};
                     proto := VObjectPrototype |}).
Proof. repeat split; vm_compute; reflexivity. Qed.

End InheritedKeys.

(** ** The pattern matcher and the email pattern *)

Module Patterns.

Lemma append_empty (s1 s2 : string) : s1 +:+ s2 = "" -> s1 = "" /\ s2 = "".
Proof. destruct s1; [auto | discriminate]. Qed.

Lemma nullable_matches (r : Re) : nullable r = true <-> matches r "".
Proof.
  split.
  - induction r as [| |p|r1 IH1 r2 IH2|r1 IH1 r2 IH2|r IH]; simpl; intros H;
      try discriminate H.
    + constructor.
    + apply andb_true_iff in H as [H1 H2].
      apply (MCat r1 r2 "" ""); auto.
    + apply orb_true_iff in H as [H | H];
        [apply MAltL | apply MAltR]; auto.
    + constructor.
  - intros H. remember ""%string as s eqn:Hs.
    induction H as [|p c Hp|r1 r2 s1 s2 H1 IH1 H2 IH2|r1 r2 s H IH|r1 r2 s H IH
                   |r|r s1 s2 H1 IH1 H2 IH2]; simpl; try reflexivity.
    + discriminate Hs.
    + apply append_empty in Hs as [-> ->].
      rewrite IH1, IH2; reflexivity.
    + rewrite IH by exact Hs. reflexivity.
    + rewrite IH by exact Hs. apply orb_true_r.
Qed.

Lemma deriv_sound (c : ascii) (r : Re) (s : string) :
  matches (deriv c r) s -> matches r (String c s).
Proof.
  revert s.
  induction r as [| |p|r1 IH1 r2 IH2|r1 IH1 r2 IH2|r IH]; simpl; intros s H.
  - inversion H.
  - inversion H.
  - destruct (p c) eqn:Hp; inversion H; subst. constructor. exact Hp.
  - destruct (nullable r1) eqn:Hnull.
    + inversion H as [| | | ? ? ? Hl | ? ? ? Hr | |]; subst.
      * inversion Hl as [| |? ? s1 s2 Ha Hb| | | |]; subst.
        apply (MCat r1 r2 (String c s1) s2); auto.
      * apply (MCat r1 r2 "" (String c s)); [|auto].
        apply nullable_matches. exact Hnull.
    + inversion H as [| |? ? s1 s2 Ha Hb| | | |]; subst.
      apply (MCat r1 r2 (String c s1) s2); auto.
  - inversion H; subst; [apply MAltL | apply MAltR]; auto.
  - inversion H as [| |? ? s1 s2 Ha Hb| | | |]; subst.
    apply (MStarApp r (String c s1) s2); auto.
Qed.

Lemma deriv_complete (r : Re) (s' : string) :
  matches r s' ->
  forall c s, s' = String c s -> matches (deriv c r) s.
Proof.
  induction 1 as [|p c' Hp|r1 r2 s1 s2 H1 IH1 H2 IH2|r1 r2 s0 H IH|r1 r2 s0 H IH
                 |r|r s1 s2 H1 IH1 H2 IH2]; intros c s Hs; simpl.
  - discriminate Hs.
  - injection Hs as -> <-. rewrite Hp. constructor.
  - destruct s1 as [|c1 s1].
    + change (s2 = String c s) in Hs.
      apply nullable_matches in H1. rewrite H1.
      apply MAltR. apply IH2. exact Hs.
    + change (String c1 (s1 +:+ s2) = String c s) in Hs.
      injection Hs as -> <-.
      assert (Hcat : matches (ReCat (deriv c r1) r2) (s1 +:+ s2))
        by (constructor; [apply IH1; reflexivity | exact H2]).
      destruct (nullable r1); [apply MAltL|]; exact Hcat.
  - apply MAltL. apply IH. exact Hs.
  - apply MAltR. apply IH. exact Hs.
  - discriminate Hs.
  - destruct s1 as [|c1 s1].
    + change (s2 = String c s) in Hs. apply (IH2 c s Hs).
    + change (String c1 (s1 +:+ s2) = String c s) in Hs.
      injection Hs as -> <-.
      constructor; [apply IH1; reflexivity | exact H2].
Qed.

(** The matcher decides the language of the pattern. *)
Lemma reMatch_correct (r : Re) (s : string) :
  reMatch r s = true <-> matches r s.
Proof.
  revert r. induction s as [|c s IH]; intros r; simpl.
  - apply nullable_matches.
  - rewrite IH. split.
    + apply deriv_sound.
    + intros H. apply (deriv_complete _ _ H). reflexivity.
Qed.

Lemma star_class_matches (p : ascii -> bool) (w : string) :
  matches (ReStar (ReClass p)) w <-> allChars p w = true.
Proof.
  split.
  - intros H. remember (ReStar (ReClass p)) as r eqn:Hr.
    induction H as [| | | | |r'|r' s1 s2 H1 _ H2 IH2]; try discriminate Hr.
    + reflexivity.
    + injection Hr as ->. inversion H1 as [|? c Hc| | | | |]; subst.
      change (p c && allChars p s2 = true).
      rewrite Hc, IH2; reflexivity.
  - induction w as [|c w IH]; simpl; intros H.
    + constructor.
    + apply andb_true_iff in H as [Hc Hw].
      apply (MStarApp (ReClass p) (String c "") w);
        [constructor; exact Hc | apply IH; exact Hw].
Qed.

Lemma plus_class_matches (p : ascii -> bool) (w : string) :
  matches (RePlus (ReClass p)) w <-> w <> "" /\ allChars p w = true.
Proof.
  unfold RePlus. split.
  - intros H. inversion H as [| |? ? s1 s2 H1 H2| | | |]; subst.
    inversion H1 as [|? c Hc| | | | |]; subst.
    apply star_class_matches in H2.
    split; [discriminate|]. change (p c && allChars p s2 = true).
    rewrite Hc, H2. reflexivity.
  - intros [Hne Hall]. destruct w as [|c w]; [contradiction|].
    simpl in Hall. apply andb_true_iff in Hall as [Hc Hw].
    apply (MCat (ReClass p) (ReStar (ReClass p)) (String c "") w);
      [constructor; exact Hc | apply star_class_matches; exact Hw].
Qed.

Lemma isWord_matches (w : string) :
  matches (RePlus (ReClass notSpaceNorAt)) w <-> isWord w = true.
Proof.
  rewrite plus_class_matches. unfold isWord.
  rewrite andb_true_iff, negb_true_iff, String.eqb_neq. reflexivity.
Qed.

Lemma char_matches (d : ascii) (s : string) :
  matches (ReClass (isChar d)) s <-> s = String d "".
Proof.
  split.
  - intros H. inversion H as [|? c Hc| | | | |]; subst. unfold isChar in Hc.
    apply Ascii.eqb_eq in Hc. subst. reflexivity.
  - intros ->. constructor. apply Ascii.eqb_refl.
Qed.

End Patterns.

(** ** The type checks of the supported tags *)

Module TypeChecks.

Lemma cat_matches (r1 r2 : Re) (s : string) :
  matches (ReCat r1 r2) s <->
  exists s1 s2, s = s1 +:+ s2 /\ matches r1 s1 /\ matches r2 s2.
Proof.
  split.
  - intros H. inversion H as [| |? ? s1 s2 H1 H2| | | |]; subst. eauto.
  - intros (s1 & s2 & -> & H1 & H2). constructor; assumption.
Qed.

(** The strings the email pattern accepts: three non-empty runs of code
    units that are neither whitespace nor [@], separated by one [@] and, in
    what follows it, one dot. *)
Lemma emailPattern_matches (s : string) :
  reMatch emailPattern s = true <->
  exists l d t,
    s = l +:+ "@" +:+ d +:+ "." +:+ t /\
    isWord l = true /\ isWord d = true /\ isWord t = true.
Proof.
  rewrite Patterns.reMatch_correct. unfold emailPattern. split.
  - intros H.
    apply cat_matches in H as (l & s1 & -> & Hl & H).
    apply cat_matches in H as (a & s2 & -> & Ha & H).
    apply cat_matches in H as (d & s3 & -> & Hd & H).
    apply cat_matches in H as (b & t & -> & Hb & Ht).
    apply Patterns.char_matches in Ha, Hb. subst a b.
    apply Patterns.isWord_matches in Hl, Hd, Ht.
    exists l, d, t. auto.
  - intros (l & d & t & -> & Hl & Hd & Ht).
    apply Patterns.isWord_matches in Hl, Hd, Ht.
    repeat (constructor; try assumption); apply Ascii.eqb_refl.
Qed.

(** X2.  Each JSON value is accepted by exactly one of the five tags
    [string], [number], [boolean], [array] and [object]: an array is not an
    [object], and [null] (which a rule never sees, being absent) would
    count as an [object]. *)
Theorem structural_tags_partition (tag : string) (j : Json) :
  In tag structuralTags ->
  callTypeValidator (Some tag) (VJson j) =
    Returns (String.eqb tag (structuralTag j)).
Proof.
  intros Hin. simpl in Hin.
  destruct Hin as [<- | [<- | [<- | [<- | [<- | []]]]]];
    destruct j; reflexivity.
Qed.

Lemma structural_tags_partition_witness :
  callTypeValidator (Some "object") (VJson (JArr [JNum 1])) = Returns false.
Proof.
  refine (structural_tags_partition "object" (JArr [JNum 1]) _).
  simpl. do 4 right. left. reflexivity.
Defined.

End TypeChecks.

(** ** Whole runs: verdict and error list *)

Module Runs.

Lemma checkRule_throws body st rule :
  checkRule body st rule = Throws <-> ruleMessages body rule = Throws.
Proof.
  rewrite checkRule_eq.
  destruct (ruleMessages body rule); simpl; split; congruence.
Qed.

Lemma flat_map_nil {A B : Type} (f : A -> list B) (l : list A) :
  flat_map f l = [] <-> Forall (fun x => f x = []) l.
Proof.
  induction l as [|x l IH]; simpl.
  - split; [constructor | reflexivity].
  - split.
    + intros H. apply app_eq_nil in H as [Hx Hl].
      constructor; [exact Hx | apply IH; exact Hl].
    + intros H. inversion H as [|? ? Hx Hl]; subst.
      rewrite Hx. apply IH. exact Hl.
Qed.

(** A pass either throws, at a rule whose own evaluation throws, or returns
    with the reported messages of all rules appended in rule order. *)
Lemma forEachRule_cases body rules st :
  (forEachRule body rules st = Throws /\
   Exists (fun rule => ruleMessages body rule = Throws) rules) \/
  (exists st',
     forEachRule body rules st = Returns st' /\
     Forall (fun rule => ruleMessages body rule <> Throws) rules /\
     errors st' = errors st ++ flat_map (reported body) rules).
Proof.
  revert st. induction rules as [|rule rules IH]; intros st; simpl.
  - right. exists st. rewrite app_nil_r. auto.
  - rewrite checkRule_eq. unfold reported at 1.
    destruct (ruleMessages body rule) as [new|] eqn:Hnew; simpl.
    + match goal with |- context [forEachRule body rules ?s] =>
        destruct (IH s) as [[Hthrow Hex] | (st' & Hret & Hall & Herrs)]
      end.
      * left. split; [exact Hthrow | apply Exists_cons_tl; exact Hex].
      * right. exists st'. split; [exact Hret|]. split.
        -- constructor; [congruence | exact Hall].
        -- rewrite Herrs. simpl. rewrite <- app_assoc. reflexivity.
    + left. split; [reflexivity | apply Exists_cons_hd; exact Hnew].
Qed.

(** X3.  The verdict of the handler depends only on what each rule reports
    on its own: it throws exactly when the evaluation of some rule throws;
    it calls [next] exactly when every rule reports nothing; otherwise it
    responds, and the message list is then the non-empty concatenation, in
    rule order, of what the rules report. *)
Theorem verdict rules body :
  (validateRequestBody rules body = Throws <->
   Exists (fun rule => ruleMessages body rule = Throws) rules) /\
  ((exists newBody, validateRequestBody rules body = Returns (Next newBody)) <->
   Forall (fun rule => ruleMessages body rule = Returns []) rules) /\
  (forall code payload,
     validateRequestBody rules body = Returns (Respond code payload) ->
     message payload = flat_map (reported body) rules /\ message payload <> []).
Proof.
  unfold validateRequestBody.
  destruct (forEachRule_cases body rules initialState)
    as [[Hthrow Hex] | (st & Hret & Hall & Herrs)].
  - rewrite Hthrow. simpl. split; [|split].
    + split; auto.
    + split.
      * intros [d Hd]. discriminate Hd.
      * intros Hclean. exfalso.
        apply Exists_exists in Hex as (rule & Hin & Hr).
        rewrite Forall_forall in Hclean.
        rewrite (Hclean rule Hin) in Hr. discriminate Hr.
    + intros code payload H. discriminate H.
  - rewrite Hret. simpl in Herrs |- *. split; [|split].
    + split.
      * destruct (errors st); discriminate.
      * intros Hex. exfalso.
        apply Exists_exists in Hex as (rule & Hin & Hr).
        rewrite Forall_forall in Hall. apply (Hall rule Hin). exact Hr.
    + split.
      * intros [d Hd].
        destruct (errors st) eqn:He; [|discriminate Hd].
        symmetry in Herrs. apply flat_map_nil in Herrs.
        rewrite Forall_forall in *. intros rule Hin.
        specialize (Hall rule Hin). specialize (Herrs rule Hin).
        unfold reported in Herrs.
        destruct (ruleMessages body rule); congruence.
      * intros Hclean.
        assert (He : errors st = []).
        { rewrite Herrs. apply flat_map_nil.
          rewrite Forall_forall in *. intros rule Hin.
          unfold reported. rewrite (Hclean rule Hin). reflexivity. }
        rewrite He. simpl. eauto.
    + intros code payload H.
      destruct (errors st) eqn:He; [discriminate H|].
      injection H as <- <-. simpl. rewrite <- Herrs. split; [reflexivity|discriminate].
Qed.

(** The three things the handler can do, told apart by what the rules
    report. *)
Lemma handler_cases rules body :
  (Exists (fun rule => ruleMessages body rule = Throws) rules /\
   validateRequestBody rules body = Throws) \/
  (Forall (fun rule => ruleMessages body rule <> Throws) rules /\
   flat_map (reported body) rules = [] /\
   exists newBody, validateRequestBody rules body = Returns (Next newBody)) \/
  (Forall (fun rule => ruleMessages body rule <> Throws) rules /\
   flat_map (reported body) rules <> [] /\
   validateRequestBody rules body =
     Returns (Respond 200 {| status := 400;
                             message := flat_map (reported body) rules |})).
Proof.
  unfold validateRequestBody.
  destruct (forEachRule_cases body rules initialState)
    as [[Hthrow Hex] | (st & Hret & Hall & Herrs)].
  - left. rewrite Hthrow. auto.
  - right. rewrite Hret. simpl in Herrs |- *. rewrite Herrs.
    destruct (flat_map (reported body) rules) eqn:Hmsgs; simpl.
    + left. eauto.
    + right. split; [exact Hall|]. split; [discriminate | reflexivity].
Qed.

Lemma next_iff_clean rules body :
  (exists newBody, validateRequestBody rules body = Returns (Next newBody)) <->
  Forall (fun rule => ruleMessages body rule = Returns []) rules.
Proof.
  destruct (handler_cases rules body)
    as [[Hex H] | [(Hall & Hnil & d & H) | (Hall & Hcons & H)]]; rewrite H.
  - split; [intros [d Hd]; discriminate Hd|].
    intros Hclean. apply Exists_exists in Hex as (rule & Hin & Hr).
    rewrite Forall_forall in Hclean. rewrite (Hclean rule Hin) in Hr.
    discriminate Hr.
  - split; [|eauto]. intros _.
    apply flat_map_nil in Hnil. rewrite Forall_forall in *.
    intros rule Hin. specialize (Hall rule Hin). specialize (Hnil rule Hin).
    unfold reported in Hnil. destruct (ruleMessages body rule); congruence.
  - split; [intros [d Hd]; discriminate Hd|].
    intros Hclean. exfalso. apply Hcons. apply flat_map_nil.
    rewrite Forall_forall in *. intros rule Hin.
    unfold reported. rewrite (Hclean rule Hin). reflexivity.
Qed.

End Runs.

(** ** The body handed to the next stage *)

Module Sanitized.

Lemma namesKey_true rules k :
  namesKey rules k = true <-> exists rule, rule ∈ rules /\ key rule = k.
Proof.
  unfold namesKey. rewrite existsb_exists. split.
  - intros (rule & Hin & Heq). apply String.eqb_eq in Heq.
    exists rule. split; [apply list_elem_of_In; exact Hin | exact Heq].
  - intros (rule & Hin & Heq). exists rule.
    split; [apply list_elem_of_In; exact Hin | apply String.eqb_eq; exact Heq].
Qed.

Lemma setProperty_lookup o key value k v :
  own (setProperty o key value) !! k = Some v ->
  own o !! k = Some v \/ (key = k /\ v = value).
Proof.
  unfold setProperty.
  destruct (_ && _ && _); [destruct (isObject value); auto|].
  simpl. rewrite lookup_insert. destruct (decide (key = k)) as [->|Hne].
  - intros H. injection H as <-. auto.
  - auto.
Qed.

Lemma checkRule_own_value body st rule st' k v :
  checkRule body st rule = Returns st' ->
  own (validatedData st') !! k = Some v ->
  own (validatedData st) !! k = Some v \/
  (key rule = k /\ v = bodyGet body k /\ isPresent v = true).
Proof.
  rewrite checkRule_eq. intros H.
  apply bind_Returns in H as (new & _ & H). injection H as <-. simpl.
  destruct (isPresent (bodyGet body (key rule))) eqn:Hpresent; simpl; [|auto].
  destruct (noErrors (errors st ++ new)); [|auto].
  intros Hv. apply setProperty_lookup in Hv as [Hold | [<- ->]]; auto.
Qed.

(** Whatever a pass has recorded under a key is the value the body holds
    there, a present one, and some rule names the key. *)
Lemma forEachRule_own_value body rules st0 st k v :
  forEachRule body rules st0 = Returns st ->
  own (validatedData st) !! k = Some v ->
  own (validatedData st0) !! k = Some v \/
  (v = bodyGet body k /\ isPresent v = true /\ namesKey rules k = true).
Proof.
  revert st0. induction rules as [|rule rules IH]; intros st0 Hrun Hv;
    simpl in Hrun.
  - injection Hrun as <-. auto.
  - apply bind_Returns in Hrun as (st1 & Hstep & Hrest).
    destruct (IH _ Hrest Hv) as [Hst1 | (-> & Hpresent & Hnames)].
    + destruct (checkRule_own_value _ _ _ _ _ _ Hstep Hst1)
        as [Hold | (Hkey & -> & Hpresent)]; [auto|].
      right. split; [reflexivity|]. split; [exact Hpresent|].
      simpl. apply orb_true_iff. left. apply String.eqb_eq. exact Hkey.
    + right. split; [reflexivity|]. split; [exact Hpresent|].
      simpl. rewrite Hnames. apply orb_true_r.
Qed.

(** In a pass that ends without any error, every rule that found a present
    value has recorded it. *)
Lemma forEachRule_clean_records body rules st k :
  forEachRule body rules initialState = Returns st ->
  errors st = [] ->
  k <> "__proto__" ->
  namesKey rules k = true ->
  isPresent (bodyGet body k) = true ->
  own (validatedData st) !! k = Some (bodyGet body k).
Proof.
  intros Hrun Hclean Hk Hnames Hpresent.
  apply namesKey_true in Hnames as (rule & Hin & Hkey).
  apply list_elem_of_split in Hin as (before & after & Hsplit).
  assert (Hsome : is_Some (own (validatedData st) !! k)).
  { apply (forEachRule_own_iff _ _ _ _ _ Hrun Hk). right.
    assert (Hrun' := Hrun).
    rewrite Hsplit in Hrun'.
    replace (before ++ rule :: after) with ((before ++ [rule]) ++ after)
      in Hrun' by (rewrite <- app_assoc; reflexivity).
    rewrite forEachRule_app in Hrun'.
    apply bind_Returns in Hrun' as (st_rule & Hpre & Hpost).
    exists before, rule, after, st_rule. repeat split; try assumption.
    apply forEachRule_errors in Hpost as (perRule & _ & Herrs).
    rewrite Hclean in Herrs. symmetry in Herrs.
    apply app_eq_nil in Herrs as [Herrs _]. exact Herrs. }
  destruct Hsome as [v Hv]. rewrite Hv. f_equal.
  destruct (forEachRule_own_value _ _ _ _ _ _ Hrun Hv) as [Hinit | (-> & _)];
    [discriminate Hinit | reflexivity].
Qed.

End Sanitized.

Module Continued.



Lemma checkRule_proto body st rule st' :
  key rule <> "__proto__" ->
  checkRule body st rule = Returns st' ->
  proto (validatedData st') = proto (validatedData st).
Proof.
  intros Hkey. rewrite checkRule_eq. intros H.
  apply bind_Returns in H as (new & _ & H). injection H as <-. simpl.
  destruct (_ && _); [|reflexivity].
  unfold setProperty.
  destruct (String.eqb (key rule) "__proto__") eqn:Heq;
    [apply String.eqb_eq in Heq; contradiction | reflexivity].
Qed.

Lemma forEachRule_proto body rules st0 st :
  Forall (fun rule => key rule <> "__proto__") rules ->
  forEachRule body rules st0 = Returns st ->
  proto (validatedData st) = proto (validatedData st0).
Proof.
  intros Hkeys. revert st0.
  induction Hkeys as [|rule rules Hkey _ IH]; intros st0 Hrun; simpl in Hrun.
  - injection Hrun as <-. reflexivity.
  - apply bind_Returns in Hrun as (st1 & Hstep & Hrest).
    rewrite (IH _ Hrest). apply (checkRule_proto _ _ _ _ Hkey Hstep).
Qed.

Lemma namesKey_proto_false rules :
  Forall (fun rule => key rule <> "__proto__") rules ->
  namesKey rules "__proto__" = false.
Proof.
  intros Hkeys. destruct (namesKey rules "__proto__") eqn:Hnames; [|reflexivity].
  apply Sanitized.namesKey_true in Hnames as (rule & Hin & Hkey).
  rewrite Forall_forall in Hkeys. destruct (Hkeys rule Hin Hkey).
Qed.

(** X5.  If no rule is on the key [__proto__], then whatever the request
    body contains (a [__proto__] member included), the object handed to the
    next stage keeps [Object.prototype] as its prototype and has no own
    [__proto__] property. *)
Theorem prototype_untouched rules body newBody :
  Forall (fun rule => key rule <> "__proto__") rules ->
  validateRequestBody rules body = Returns (Next newBody) ->
  proto newBody = VObjectPrototype /\ own newBody !! "__proto__" = None.
Proof.
  intros Hkeys H. unfold validateRequestBody in H.
  apply bind_Returns in H as (st & Hrun & H).
  destruct (errors st); [|discriminate H]. injection H as <-. split.
  - apply (forEachRule_proto _ _ _ _ Hkeys Hrun).
  - destruct (own (validatedData st) !! "__proto__") as [v|] eqn:Hv;
      [|reflexivity].
    destruct (Sanitized.forEachRule_own_value _ _ _ _ _ _ Hrun Hv)
      as [Hinit | (_ & _ & Hnames)]; [discriminate Hinit|].
    rewrite (namesKey_proto_false _ Hkeys) in Hnames. discriminate Hnames.
Qed.

Lemma prototype_untouched_witness :
  let body : gmap string Json :=
    <[ "__proto__" := JObj [("isAdmin", JBool true)] ]>
      {[ "name" := JStr "Alice" ]} in
  let newBody :=
    {| own := {[ "name" := VJson (JStr "Alice") ]}; proto := VObjectPrototype |} in
  validateRequestBody [nameRule] body = Returns (Next newBody) /\
  proto newBody = VObjectPrototype /\ own newBody !! "__proto__" = None.
Proof.
  intros body newBody.
  assert (Hrun : validateRequestBody [nameRule] body = Returns (Next newBody))
    by (vm_compute; reflexivity).
  split; [exact Hrun|].
  apply (prototype_untouched [nameRule] body newBody); [|exact Hrun].
  repeat constructor. discriminate.
Defined.

End Continued.

(** ** Rule order *)

Module Order.

(** The new body, entry by entry, when no rule is on [__proto__]. *)
Lemma next_body_exact rules body newBody :
  Forall (fun rule => key rule <> "__proto__") rules ->
  validateRequestBody rules body = Returns (Next newBody) ->
  proto newBody = VObjectPrototype /\
  forall k,
    own newBody !! k =
    if namesKey rules k && isPresent (bodyGet body k)
    then Some (bodyGet body k) else None.
Proof.
  intros Hkeys H. unfold validateRequestBody in H.
  apply bind_Returns in H as (st & Hrun & H).
  destruct (errors st) eqn:Hclean; [|discriminate H]. injection H as <-.
  split; [apply (Continued.forEachRule_proto _ _ _ _ Hkeys Hrun)|].
  intros k.
  destruct (namesKey rules k && isPresent (bodyGet body k)) eqn:Hcond.
  - apply andb_true_iff in Hcond as [Hnames Hpresent].
    apply (Sanitized.forEachRule_clean_records _ _ _ _ Hrun Hclean);
      try assumption.
    intros ->. rewrite (Continued.namesKey_proto_false _ Hkeys) in Hnames.
    discriminate Hnames.
  - destruct (own (validatedData st) !! k) as [v|] eqn:Hv; [|reflexivity].
    destruct (Sanitized.forEachRule_own_value _ _ _ _ _ _ Hrun Hv)
      as [Hinit | (-> & Hpresent & Hnames)]; [discriminate Hinit|].
    rewrite Hnames, Hpresent in Hcond. discriminate Hcond.
Qed.

Lemma namesKey_Permutation rules rules' k :
  Permutation rules rules' -> namesKey rules k = namesKey rules' k.
Proof.
  intros Hperm.
  destruct (namesKey rules k) eqn:H1, (namesKey rules' k) eqn:H2;
    try reflexivity; exfalso.
  - apply Sanitized.namesKey_true in H1 as (rule & Hin & Hkey).
    rewrite Hperm in Hin.
    assert (namesKey rules' k = true)
      by (apply Sanitized.namesKey_true; eauto).
    congruence.
  - apply Sanitized.namesKey_true in H2 as (rule & Hin & Hkey).
    rewrite <- Hperm in Hin.
    assert (namesKey rules k = true)
      by (apply Sanitized.namesKey_true; eauto).
    congruence.
Qed.

Lemma JSObject_eq (o1 o2 : JSObject) :
  proto o1 = proto o2 ->
  (forall k, own o1 !! k = own o2 !! k) ->
  o1 = o2.
Proof.
  destruct o1 as [own1 proto1], o2 as [own2 proto2]. simpl.
  intros -> Hown. f_equal. apply map_eq. exact Hown.
Qed.

(** X6.  When no rule is on [__proto__], reordering the rules keeps the
    verdict and the content: for a reordered list the handler throws if
    and only if it threw; when it calls [next], the two new bodies have the
    same prototype and hold the same value under every key (the order in
    which their properties were created is that of the rules and is not
    compared); and when it responds, the status codes are the same and the
    messages are the same up to their order. *)
Theorem reordered_rules_same_content rules rules' body :
  Permutation rules rules' ->
  Forall (fun rule => key rule <> "__proto__") rules ->
  match validateRequestBody rules body, validateRequestBody rules' body with
  | Throws, Throws => True
  | Returns (Next newBody), Returns (Next newBody') =>
      proto newBody = proto newBody' /\
      forall k, own newBody !! k = own newBody' !! k
  | Returns (Respond code payload), Returns (Respond code' payload') =>
      code = code' /\ status payload = status payload' /\
      Permutation (message payload) (message payload')
  | _, _ => False
  end.
Proof.
  intros Hperm Hkeys.
  assert (Hkeys' : Forall (fun rule => key rule <> "__proto__") rules')
    by (rewrite <- Hperm; exact Hkeys).
  assert (Hmsgs : Permutation (flat_map (reported body) rules)
                              (flat_map (reported body) rules'))
    by (apply Permutation_flat_map; exact Hperm).
  destruct (Runs.handler_cases rules body)
    as [[Hex H1] | [(Hall & Hnil & d & H1) | (Hall & Hcons & H1)]];
    destruct (Runs.handler_cases rules' body)
      as [[Hex' H2] | [(Hall' & Hnil' & d' & H2) | (Hall' & Hcons' & H2)]];
    rewrite H1, H2; simpl; trivial.
  - rewrite Hperm in Hex. apply Exists_exists in Hex as (rule & Hin & Hr).
    rewrite Forall_forall in Hall'. apply (Hall' rule Hin Hr).
  - rewrite Hperm in Hex. apply Exists_exists in Hex as (rule & Hin & Hr).
    rewrite Forall_forall in Hall'. apply (Hall' rule Hin Hr).
  - rewrite <- Hperm in Hex'. apply Exists_exists in Hex' as (rule & Hin & Hr).
    rewrite Forall_forall in Hall. apply (Hall rule Hin Hr).
  - destruct (next_body_exact _ _ _ Hkeys H1) as [Hproto Hown].
    destruct (next_body_exact _ _ _ Hkeys' H2) as [Hproto' Hown'].
    split; [congruence|].
    intros k. rewrite Hown, Hown', (namesKey_Permutation _ _ k Hperm).
    reflexivity.
  - rewrite Hnil in Hmsgs. apply Permutation_nil in Hmsgs. contradiction.
  - rewrite <- Hperm in Hex'. apply Exists_exists in Hex' as (rule & Hin & Hr).
    rewrite Forall_forall in Hall. apply (Hall rule Hin Hr).
  - rewrite Hnil' in Hmsgs. symmetry in Hmsgs.
    apply Permutation_nil in Hmsgs. contradiction.
  - auto.
Qed.

Lemma reordered_rules_same_content_witness :
  let body : gmap string Json := {[ "b" := JStr "ok" ]} in
  let rules' := [optionalString "b"; requiredOnly "a"] in
  Permutation orderingRules rules' /\
  Forall (fun rule => key rule <> "__proto__") orderingRules /\
  match validateRequestBody orderingRules body, validateRequestBody rules' body with
  | Throws, Throws => True
  | Returns (Next newBody), Returns (Next newBody') =>
      proto newBody = proto newBody' /\
      forall k, own newBody !! k = own newBody' !! k
  | Returns (Respond code payload), Returns (Respond code' payload') =>
      code = code' /\ status payload = status payload' /\
      Permutation (message payload) (message payload')
  | _, _ => False
  end.
Proof.
  intros body rules'.
  assert (Hperm : Permutation orderingRules rules') by apply perm_swap.
  assert (Hkeys : Forall (fun rule => key rule <> "__proto__") orderingRules)
    by (repeat constructor; discriminate).
  split; [exact Hperm|]. split; [exact Hkeys|].
  exact (reordered_rules_same_content orderingRules rules' body Hperm Hkeys).
Defined.

End Order.

(** ** Validating a validated body again *)

Module Revalidation.

Lemma ruleMessages_ext body1 body2 rule :
  bodyGet body1 (key rule) = bodyGet body2 (key rule) ->
  ruleMessages body1 rule = ruleMessages body2 rule.
Proof. intros H. rewrite !ruleMessages_eq. simpl. rewrite H. reflexivity. Qed.

Lemma plainKey_not_proto k : plainKey k = true -> k <> "__proto__".
Proof. intros H ->. discriminate H. Qed.

(** A present value read under a plain key is a member of the body. *)
Lemma present_plain_is_json body k :
  plainKey k = true ->
  isPresent (bodyGet body k) = true ->
  exists j, body !! k = Some j /\ bodyGet body k = VJson j.
Proof.
  unfold plainKey, bodyGet. intros Hplain Hpresent.
  destruct (body !! k) as [j|]; [eauto|].
  destruct (objectPrototypeGet k); discriminate.
Qed.

Lemma jsonBody_reads rules body newBody :
  Forall (fun rule => plainKey (key rule) = true) rules ->
  (forall k,
     own newBody !! k =
     if namesKey rules k && isPresent (bodyGet body k)
     then Some (bodyGet body k) else None) ->
  forall k, bodyGet (jsonBody newBody) k = objectGet newBody k.
Proof.
  intros Hplain Hown k. unfold bodyGet, objectGet, jsonBody.
  rewrite lookup_omap, Hown.
  destruct (namesKey rules k && isPresent (bodyGet body k)) eqn:Hcond;
    [|reflexivity].
  apply andb_true_iff in Hcond as [Hnames Hpresent].
  apply Sanitized.namesKey_true in Hnames as (rule & Hin & <-).
  rewrite Forall_forall in Hplain.
  destruct (present_plain_is_json _ _ (Hplain rule Hin) Hpresent)
    as (j & _ & ->).
  reflexivity.
Qed.

(** X7.  For rules on plain keys (keys that name no property of
    [Object.prototype]), a body the handler has passed on passes again
    unchanged: the new body has [Object.prototype] as prototype, a later
    handler reads from it exactly its JSON members, and running the same
    rules on it calls [next] with the same object. *)
Theorem revalidation_is_identity rules body newBody :
  Forall (fun rule => plainKey (key rule) = true) rules ->
  validateRequestBody rules body = Returns (Next newBody) ->
  proto newBody = VObjectPrototype /\
  (forall k, bodyGet (jsonBody newBody) k = objectGet newBody k) /\
  validateRequestBody rules (jsonBody newBody) = Returns (Next newBody).
Proof.
  intros Hplain Hnext.
  assert (Hkeys : Forall (fun rule => key rule <> "__proto__") rules).
  { eapply Forall_impl; [exact Hplain|].
    intros rule. apply plainKey_not_proto. }
  destruct (Order.next_body_exact _ _ _ Hkeys Hnext) as [Hproto Hown].
  pose proof (jsonBody_reads _ _ _ Hplain Hown) as Hreads.
  split; [exact Hproto|]. split; [exact Hreads|].
  assert (Hvalue : forall rule, rule ∈ rules ->
            isPresent (bodyGet body (key rule)) = true ->
            bodyGet (jsonBody newBody) (key rule) = bodyGet body (key rule)).
  { intros rule Hin Hpresent. rewrite Hreads. unfold objectGet.
    rewrite Hown, Hpresent, andb_true_r.
    replace (namesKey rules (key rule)) with true; [reflexivity|].
    symmetry. apply Sanitized.namesKey_true. eauto. }
  assert (Habsent : forall rule, rule ∈ rules ->
            isPresent (bodyGet body (key rule)) = false ->
            bodyGet (jsonBody newBody) (key rule) = VUndefined).
  { intros rule Hin Hpresent. rewrite Hreads. unfold objectGet.
    rewrite Hown, Hpresent, andb_false_r.
    rewrite Forall_forall in Hplain. specialize (Hplain rule Hin).
    unfold plainKey in Hplain.
    destruct (objectPrototypeGet (key rule)); try discriminate Hplain.
    reflexivity. }
  assert (Hclean : Forall (fun rule => ruleMessages body rule = Returns []) rules)
    by (apply Runs.next_iff_clean; eauto).
  assert (Hclean' : Forall (fun rule =>
            ruleMessages (jsonBody newBody) rule = Returns []) rules).
  { rewrite Forall_forall in *. intros rule Hin.
    specialize (Hclean rule Hin).
    destruct (isPresent (bodyGet body (key rule))) eqn:Hpresent.
    - rewrite <- Hclean. apply ruleMessages_ext. apply Hvalue; assumption.
    - rewrite ruleMessages_eq in Hclean |- *. simpl in Hclean |- *.
      rewrite (Habsent rule Hin Hpresent). rewrite Hpresent in Hclean.
      simpl in Hclean |- *.
      destruct (required rule); [discriminate Hclean | reflexivity]. }
  apply Runs.next_iff_clean in Hclean' as [newBody' Hnext'].
  rewrite Hnext'. do 2 f_equal.
  destruct (Order.next_body_exact _ _ _ Hkeys Hnext') as [Hproto' Hown'].
  apply Order.JSObject_eq; [congruence|].
  intros k. rewrite Hown, Hown'.
  destruct (namesKey rules k) eqn:Hnames; [|reflexivity]. simpl.
  apply Sanitized.namesKey_true in Hnames as (rule & Hin & <-).
  destruct (isPresent (bodyGet body (key rule))) eqn:Hpresent.
  - rewrite (Hvalue rule Hin Hpresent), Hpresent. reflexivity.
  - rewrite (Habsent rule Hin Hpresent). reflexivity.
Qed.

Lemma revalidation_is_identity_witness :
  let body : gmap string Json :=
    <[ "role" := JStr "admin" ]> {[ "name" := JStr "Alice" ]} in
  let newBody :=
    {| own := {[ "name" := VJson (JStr "Alice") ]}; proto := VObjectPrototype |} in
  Forall (fun rule => plainKey (key rule) = true) [nameRule] /\
  validateRequestBody [nameRule] body = Returns (Next newBody) /\
  validateRequestBody [nameRule] (jsonBody newBody) = Returns (Next newBody).
Proof.
  intros body newBody.
  assert (Hplain : Forall (fun rule => plainKey (key rule) = true) [nameRule])
    by (repeat constructor).
  assert (Hrun : validateRequestBody [nameRule] body = Returns (Next newBody))
    by (vm_compute; reflexivity).
  split; [exact Hplain|]. split; [exact Hrun|].
  exact (proj2 (proj2 (revalidation_is_identity [nameRule] body newBody
                         Hplain Hrun))).
Defined.

End Revalidation.

(** ** What one rule checks *)

Module Checks.

Lemma lengthMessages_nil key value type mn mx len :
  hasLength type = true ->
  lengthOf value = Some len ->
  lengthMessages key value type mn mx = [] <-> withinBounds len mn mx.
Proof.
  intros Htype Hlen. unfold lengthMessages, lengthBelow, lengthAbove, withinBounds.
  rewrite Htype, Hlen. simpl.
  destruct mn as [m|], mx as [M|]; simpl;
    try destruct (Z.ltb_spec len m); try destruct (Z.gtb_spec len M); simpl;
    (split;
     [ intros Hnil; try discriminate Hnil;
       split; intros ? Hm; inversion Hm; subst; lia
     | intros [Hmin Hmax]; try reflexivity; exfalso;
       try specialize (Hmin _ eq_refl); try specialize (Hmax _ eq_refl); lia ]).
Qed.

Lemma hasLength_not_regex type :
  hasLength type = true -> typeIs type "custom-regex" = false.
Proof.
  unfold hasLength, typeIs. destruct type as [t|]; [|discriminate].
  intros H. apply orb_true_iff in H as [H | H];
    apply String.eqb_eq in H; subst; reflexivity.
Qed.

(** X8.  For a rule of type [string] or [array] without custom validator
    and a value of that type, the rule reports nothing exactly when the
    length lies within the bounds that are set, both bounds included. *)
Theorem length_bounds_inclusive rule body value len :
  bodyGet body (key rule) = value ->
  (exists s, value = VJson (JStr s) /\ s <> "" /\ type rule = Some "string" /\
             len = Z.of_nat (String.length s)) \/
  (exists items, value = VJson (JArr items) /\ type rule = Some "array" /\
                 len = Z.of_nat (List.length items)) ->
  customValidator rule = None ->
  ruleMessages body rule = Returns [] <->
  withinBounds len (min rule) (max rule).
Proof.
  intros Hvalue Hshape Hcv.
  assert (H : isPresent value = true /\
              callTypeValidator (type rule) value = Returns true /\
              hasLength (type rule) = true /\ lengthOf value = Some len).
  { destruct Hshape as [(s & -> & Hs & -> & ->) | (items & -> & -> & ->)].
    - destruct s; [contradiction|]. repeat split.
    - repeat split. }
  destruct H as (Hpresent & Htype & Hlength & Hlen).
  rewrite ruleMessages_eq. simpl. rewrite Hvalue, Hpresent, Htype.
  rewrite andb_false_r. simpl.
  unfold valueMessages, regexMessages. rewrite Hcv.
  rewrite (hasLength_not_regex _ Hlength). simpl.
  rewrite <- (lengthMessages_nil (key rule) value (type rule) _ _ len Hlength Hlen).
  destruct (regex rule); simpl; rewrite app_nil_r;
    split; congruence.
Qed.

Lemma length_bounds_inclusive_witness :
  let body : gmap string Json := {[ "tags" := JArr [JStr "a"; JStr "b"] ]} in
  ruleMessages body tagsRule = Returns [] <-> withinBounds 2 (Some 1) (Some 2).
Proof.
  intros body.
  refine (length_bounds_inclusive tagsRule body
            (VJson (JArr [JStr "a"; JStr "b"])) 2 _ _ _).
  - reflexivity.
  - right. exists [JStr "a"; JStr "b"]. repeat split.
  - reflexivity.
Defined.

(** X9.  For a rule whose type is neither [string] nor [array] (an [email]
    rule, say), [min] and [max] have no effect at all, on any body. *)
Theorem bounds_only_for_lengths rule body st :
  hasLength (type rule) = false ->
  checkRule body st rule = checkRule body st (withoutBounds rule).
Proof.
  intros Htype.
  assert (Hmsg : ruleMessages body rule = ruleMessages body (withoutBounds rule)).
  { rewrite !ruleMessages_eq. simpl. unfold valueMessages.
    rewrite !NumberBounds.lengthMessages_other_type by exact Htype.
    reflexivity. }
  rewrite !checkRule_eq, Hmsg. reflexivity.
Qed.

Lemma bounds_only_for_lengths_witness :
  checkRule {[ "mail" := JStr "a@b.c" ]} initialState mailRule =
  checkRule {[ "mail" := JStr "a@b.c" ]} initialState (withoutBounds mailRule).
Proof.
  refine (bounds_only_for_lengths mailRule {[ "mail" := JStr "a@b.c" ]}
            initialState _).
  reflexivity.
Defined.

(** X10.  [regex] is consulted for the type [custom-regex] only: for a rule
    of any other type, a [string] rule included, the pattern has no effect
    (it is not even run). *)
Theorem regex_only_for_custom_regex rule body st :
  typeIs (type rule) "custom-regex" = false ->
  checkRule body st rule = checkRule body st (withoutRegex rule).
Proof.
  intros Htype.
  assert (Hmsg : ruleMessages body rule = ruleMessages body (withoutRegex rule)).
  { rewrite !ruleMessages_eq. simpl. unfold valueMessages, regexMessages.
    rewrite Htype. destruct (regex rule); reflexivity. }
  rewrite !checkRule_eq, Hmsg. reflexivity.
Qed.

Lemma regex_only_for_custom_regex_witness :
  checkRule {[ "code" := JStr "x1" ]} initialState patternOnString =
  Returns {| errors := [];
             validatedData :=
               {| own := {[ "code" := VJson (JStr "x1") ]};
                  proto := VObjectPrototype |} |}.
Proof.
  rewrite (regex_only_for_custom_regex patternOnString
             {[ "code" := JStr "x1" ]} initialState).
  - vm_compute. reflexivity.
  - reflexivity.
Defined.

Lemma type_failure_step rule body st :
  isPresent (bodyGet body (key rule)) = true ->
  callTypeValidator (type rule) (bodyGet body (key rule)) = Returns false ->
  checkRule body st rule =
  Returns {| errors := errors st ++
                       [key rule +:+ " should be a valid " +:+ typeText (type rule)];
             validatedData := validatedData st |}.
Proof.
  intros Hpresent Htype. rewrite checkRule_eq, ruleMessages_eq. simpl.
  rewrite Hpresent, Htype, andb_false_r. simpl.
  rewrite noErrors_app, andb_false_r. reflexivity.
Qed.

(** X11.  A present value that fails the type check costs exactly one
    message, ["{key} should be a valid {type}"]: nothing is recorded, and
    neither the bounds nor the pattern nor the custom validator is
    consulted, so a validator that would throw on such a value does not. *)
Theorem wrong_type_stops rule body st :
  isPresent (bodyGet body (key rule)) = true ->
  callTypeValidator (type rule) (bodyGet body (key rule)) = Returns false ->
  checkRule body st rule =
  Returns {| errors := errors st ++
                       [key rule +:+ " should be a valid " +:+ typeText (type rule)];
             validatedData := validatedData st |}.
Proof. apply type_failure_step. Qed.

Lemma wrong_type_stops_witness :
  checkRule {[ "tags" := JStr "a" ]} initialState tagsRule =
  Returns {| errors := ["tags should be a valid array"];
             validatedData := emptyObject |}.
Proof.
  refine (wrong_type_stops tagsRule {[ "tags" := JStr "a" ]} initialState _ _);
    reflexivity.
Defined.

(** X12.  A tag that is neither an entry of [typeValidators] nor the name
    of a property of [Object.prototype] rejects every present value with
    ["{key} should be a valid {tag}"], and nothing else of the rule is
    consulted. *)
Theorem unknown_tag_rejects rule body st tag :
  type rule = Some tag ->
  ownValidator tag = None ->
  plainKey tag = true ->
  isPresent (bodyGet body (key rule)) = true ->
  checkRule body st rule =
  Returns {| errors := errors st ++ [key rule +:+ " should be a valid " +:+ tag];
             validatedData := validatedData st |}.
Proof.
  intros Htype Hown Hplain Hpresent.
  rewrite (type_failure_step rule body st Hpresent).
  - rewrite Htype. reflexivity.
  - unfold callTypeValidator. rewrite Htype. simpl. rewrite Hown.
    unfold plainKey in Hplain.
    destruct (objectPrototypeGet tag); try discriminate Hplain. reflexivity.
Qed.

Lemma unknown_tag_rejects_witness :
  checkRule {[ "n" := JNum 3 ]} initialState integerRule =
  Returns {| errors := ["n" +:+ " should be a valid " +:+ "integer"];
             validatedData := emptyObject |}.
Proof.
  refine (unknown_tag_rejects integerRule {[ "n" := JNum 3 ]} initialState
            "integer" _ _ _ _); reflexivity.
Defined.




End Checks.

(** ** What a continuation guarantees *)

Module Guarantee.

Lemma valueMessages_nil key value type mn mx rg cv :
  valueMessages key value type mn mx rg cv = Returns [] ->
  lengthMessages key value type mn mx = [] /\
  regexMessages key value type rg = Returns [] /\
  customMessages value cv = Returns [].
Proof.
  unfold valueMessages. intros H.
  apply bind_Returns in H as (fromRegex & Hregex & H).
  apply bind_Returns in H as (fromCustom & Hcustom & H).
  injection H as H. apply app_eq_nil in H as [Hlen H].
  apply app_eq_nil in H as [-> ->]. auto.
Qed.

Lemma clean_rule_accepts body rule :
  ruleMessages body rule = Returns [] ->
  (required rule = true -> isPresent (bodyGet body (key rule)) = true) /\
  (isPresent (bodyGet body (key rule)) = true ->
   accepted rule (bodyGet body (key rule))).
Proof.
  rewrite ruleMessages_eq. simpl. unfold accepted.
  destruct (isPresent (bodyGet body (key rule))) eqn:Hpresent;
    destruct (required rule); simpl; intros H; try discriminate H;
    (split; [intros; congruence|]); intros Hp; try discriminate Hp.
  all: destruct (callTypeValidator (type rule) (bodyGet body (key rule)))
         as [[|]|] eqn:Htype; simpl in H; try discriminate H.
  all: apply valueMessages_nil in H as (Hlen & Hregex & Hcustom).
  all: split; [reflexivity|]; split; [|split].
  all: try (intros len Hhas Hlength;
            apply (Checks.lengthMessages_nil (key rule) _ (type rule) _ _ len
                     Hhas Hlength); exact Hlen).
  all: try (intros test Hre Hr; unfold regexMessages in Hregex;
            rewrite Hr, Hre in Hregex;
            destruct (test (bodyGet body (key rule))) as [[|]|];
            [reflexivity | discriminate Hregex | discriminate Hregex]).
  all: intros validator Hc; unfold customMessages in Hcustom;
       rewrite Hc in Hcustom;
       destruct (validator (bodyGet body (key rule))) as [[message|]|];
       simpl in Hcustom; [|auto|discriminate Hcustom];
       destruct (String.eqb message "") eqn:Heq; [|discriminate Hcustom];
       apply String.eqb_eq in Heq; subst; auto.
Qed.

(** X14.  When the handler calls [next], every rule whose key names no
    property of [Object.prototype] holds of the body: if the rule is
    required, the body has a member under the key that is neither [null]
    nor the empty string; and any such member passed the rule's type check,
    has a length within the rule's bounds (types [string] and [array]),
    matches the rule's pattern (type [custom-regex]) and drew no message
    from the rule's custom validator. *)
Theorem next_means_valid rules body newBody rule :
  validateRequestBody rules body = Returns (Next newBody) ->
  rule ∈ rules ->
  plainKey (key rule) = true ->
  (required rule = true ->
   exists j, body !! key rule = Some j /\ j <> JNull /\ j <> JStr "") /\
  (forall j,
     body !! key rule = Some j -> j <> JNull -> j <> JStr "" ->
     accepted rule (VJson j)).
Proof.
  intros Hnext Hin Hplain.
  assert (Hclean : Forall (fun r => ruleMessages body r = Returns []) rules)
    by (apply Runs.next_iff_clean; eauto).
  rewrite Forall_forall in Hclean.
  destruct (clean_rule_accepts body rule (Hclean rule Hin)) as [Hreq Hacc].
  split.
  - intros Hr. specialize (Hreq Hr).
    destruct (Revalidation.present_plain_is_json _ _ Hplain Hreq)
      as (j & Hj & Hget).
    exists j. split; [exact Hj|]. rewrite Hget in Hreq.
    split; intros ->; discriminate Hreq.
  - intros j Hj Hnull Hempty.
    assert (Hget : bodyGet body (key rule) = VJson j)
      by (unfold bodyGet; rewrite Hj; reflexivity).
    rewrite Hget in Hacc. apply Hacc.
    destruct j as [| | |[|]| |]; try reflexivity; contradiction.
Qed.

Lemma next_means_valid_witness :
  let body : gmap string Json := {[ "name" := JStr "Alice" ]} in
  let newBody :=
    {| own := {[ "name" := VJson (JStr "Alice") ]}; proto := VObjectPrototype |} in
  validateRequestBody [nameRule] body = Returns (Next newBody) /\
  plainKey (key nameRule) = true /\
  exists j, body !! key nameRule = Some j /\ j <> JNull /\ j <> JStr "".
Proof.
  intros body newBody.
  assert (Hrun : validateRequestBody [nameRule] body = Returns (Next newBody))
    by (vm_compute; reflexivity).
  split; [exact Hrun|]. split; [reflexivity|].
  apply (proj1 (next_means_valid [nameRule] body newBody nameRule Hrun
                  (list_elem_of_here _ _) eq_refl)).
  reflexivity.
Defined.

Lemma lengthMessages_length key value type mn mx :
  (List.length (lengthMessages key value type mn mx) <= 2)%nat.
Proof.
  unfold lengthMessages. rewrite length_app.
  destruct mn as [m|], mx as [M|];
    try destruct (hasLength type && lengthBelow value m);
    try destruct (hasLength type && lengthAbove value M); simpl; lia.
Qed.

Lemma reported_length body rule :
  (List.length (reported body rule) <= 3)%nat.
Proof.
  unfold reported. rewrite ruleMessages_eq. simpl.
  destruct (required rule && negb (isPresent (bodyGet body (key rule))));
    [simpl; lia|].
  destruct (negb (isPresent (bodyGet body (key rule)))); [simpl; lia|].
  destruct (callTypeValidator (type rule) (bodyGet body (key rule)))
    as [[|]|]; simpl; try lia.
  unfold valueMessages.
  destruct (hasLength (type rule)) eqn:Hhas.
  - unfold regexMessages. rewrite (Checks.hasLength_not_regex _ Hhas).
    pose proof (lengthMessages_length (key rule) (bodyGet body (key rule))
                  (type rule) (min rule) (max rule)) as Hlen.
    unfold customMessages.
    destruct (regex rule); simpl;
      (destruct (customValidator rule) as [validator|]; simpl;
       [destruct (validator (bodyGet body (key rule))) as [[message|]|]; simpl;
        [destruct (String.eqb message "")| |] |]);
      simpl; rewrite ?length_app; simpl; lia.
  - rewrite (NumberBounds.lengthMessages_other_type _ _ _ _ _ Hhas).
    unfold regexMessages, customMessages.
    destruct (regex rule) as [test|]; simpl;
      [destruct (typeIs (type rule) "custom-regex"); simpl;
       [destruct (test (bodyGet body (key rule))) as [[|]|]; simpl|] |];
      try lia;
      (destruct (customValidator rule) as [validator|]; simpl;
       [destruct (validator (bodyGet body (key rule))) as [[message|]|]; simpl;
        [destruct (String.eqb message "")| |] |]);
      simpl; lia.
Qed.

Lemma flat_map_length_bound {A B : Type} (f : A -> list B) (l : list A) (n : nat) :
  (forall x, List.length (f x) <= n)%nat ->
  (List.length (flat_map f l) <= n * List.length l)%nat.
Proof.
  intros Hf. induction l as [|x l IH]; simpl; [lia|].
  rewrite length_app. specialize (Hf x). lia.
Qed.

(** X15.  A rejection carries at least one message and at most three per
    rule (two length messages and the custom validator's, at worst). *)
Theorem rejection_size rules body code payload :
  validateRequestBody rules body = Returns (Respond code payload) ->
  (1 <= List.length (message payload) <= 3 * List.length rules)%nat.
Proof.
  intros H.
  destruct (Runs.handler_cases rules body)
    as [[_ H'] | [(_ & _ & d & H') | (_ & Hcons & H')]];
    rewrite H' in H; try discriminate H.
  injection H as <- <-.
  pose proof (flat_map_length_bound (reported body) rules 3
                (reported_length body)) as Hbound.
  simpl. split; [|lia].
  destruct (flat_map (reported body) rules); [contradiction | simpl; lia].
Qed.

Lemma rejection_size_witness :
  let payload :=
    {| status := 400; message := ["name should have at least 3 characters"] |} in
  validateRequestBody [nameRule] {[ "name" := JStr "Al" ]} =
    Returns (Respond 200 payload) /\
  (1 <= List.length (message payload) <= 3 * List.length [nameRule])%nat.
Proof.
  intros payload.
  assert (Hrun : validateRequestBody [nameRule] {[ "name" := JStr "Al" ]} =
                 Returns (Respond 200 payload)) by (vm_compute; reflexivity).
  split; [exact Hrun|].
  exact (rejection_size [nameRule] {[ "name" := JStr "Al" ]} 200 payload Hrun).
Defined.

End Guarantee.

(** ** The first error freezes [validatedData] *)

Module Frozen.

(** X16.  In a pass that completes, what [validatedData] holds at the end is
    what it held just before the first rule that reported a message: that
    rule and all later ones record nothing, whatever they find.  The error
    list starts with the messages of that rule. *)
Theorem first_error_freezes body before rule after st_before st :
  forEachRule body before initialState = Returns st_before ->
  errors st_before = [] ->
  reported body rule <> [] ->
  forEachRule body (before ++ rule :: after) initialState = Returns st ->
  validatedData st = validatedData st_before /\
  exists rest, errors st = reported body rule ++ rest.
Proof.
  intros Hbefore Hclean Hreports Hrun.
  rewrite forEachRule_app, Hbefore in Hrun. simpl in Hrun.
  apply bind_Returns in Hrun as (st_rule & Hstep & Hafter).
  rewrite checkRule_eq in Hstep.
  apply bind_Returns in Hstep as (new & Hnew & Hst).
  unfold reported in Hreports |- *. rewrite Hnew in Hreports |- *.
  injection Hst as <-. rewrite Hclean in Hafter. simpl in Hafter.
  assert (Hno : noErrors new = false).
  { destruct (noErrors new) eqn:Hno; [|reflexivity].
    apply noErrors_nil in Hno. contradiction. }
  rewrite Hno, andb_false_r in Hafter.
  destruct (forEachRule_after_error body after
              {| errors := new; validatedData := validatedData st_before |}
              st Hreports Hafter) as [Hdata _].
  split; [exact Hdata|].
  apply forEachRule_errors in Hafter as (perRule & _ & Herrs).
  simpl in Herrs. eauto.
Qed.

Lemma first_error_freezes_witness :
  let body : gmap string Json := <[ "a" := JStr "x" ]> {[ "b" := JNum 5 ]} in
  let st :=
    {| errors := ["b should be a valid string"];
       validatedData :=
         {| own := {[ "a" := VJson (JStr "x") ]}; proto := VObjectPrototype |} |} in
  forEachRule body ([requiredString "a"] ++ optionalString "b" :: [optionalString "a"])
    initialState = Returns st /\
  validatedData st =
    {| own := {[ "a" := VJson (JStr "x") ]}; proto := VObjectPrototype |}.
Proof.
  intros body st.
  assert (Hrun : forEachRule body
            ([requiredString "a"] ++ optionalString "b" :: [optionalString "a"])
            initialState = Returns st) by (vm_compute; reflexivity).
  split; [exact Hrun|].
  refine (proj1 (first_error_freezes body [requiredString "a"]
                   (optionalString "b") [optionalString "a"]
                   {| errors := [];
                      validatedData :=
                        {| own := {[ "a" := VJson (JStr "x") ]};
                           proto := VObjectPrototype |} |}
                   st _ _ _ Hrun)).
  - vm_compute. reflexivity.
  - reflexivity.
  - vm_compute. discriminate.
Defined.

End Frozen.

(** ** The email pattern on full strings *)

Module WidePatterns.

Lemma unullable_matches (r : URe) : unullable r = true <-> umatches r [].
Proof.
  split.
  - induction r as [| |p|r1 IH1 r2 IH2|r1 IH1 r2 IH2|r IH]; simpl; intros H;
      try discriminate H.
    + constructor.
    + apply andb_true_iff in H as [H1 H2].
      apply (UMCat r1 r2 [] []); auto.
    + apply orb_true_iff in H as [H | H];
        [apply UMAltL | apply UMAltR]; auto.
    + constructor.
  - intros H. remember (@nil N) as u eqn:Hu.
    induction H as [|p c Hp|r1 r2 u1 u2 H1 IH1 H2 IH2|r1 r2 u H IH|r1 r2 u H IH
                   |r|r u1 u2 H1 IH1 H2 IH2]; simpl; try reflexivity.
    + discriminate Hu.
    + apply app_eq_nil in Hu as [-> ->].
      rewrite IH1, IH2; reflexivity.
    + rewrite IH by exact Hu. reflexivity.
    + rewrite IH by exact Hu. apply orb_true_r.
Qed.

Lemma uderiv_sound (c : N) (r : URe) (u : list N) :
  umatches (uderiv c r) u -> umatches r (c :: u).
Proof.
  revert u.
  induction r as [| |p|r1 IH1 r2 IH2|r1 IH1 r2 IH2|r IH]; simpl; intros u H.
  - inversion H.
  - inversion H.
  - destruct (p c) eqn:Hp; inversion H; subst. constructor. exact Hp.
  - destruct (unullable r1) eqn:Hnull.
    + inversion H as [| | | ? ? ? Hl | ? ? ? Hr | |]; subst.
      * inversion Hl as [| |? ? u1 u2 Ha Hb| | | |]; subst.
        apply (UMCat r1 r2 (c :: u1) u2); auto.
      * apply (UMCat r1 r2 [] (c :: u)); [|auto].
        apply unullable_matches. exact Hnull.
    + inversion H as [| |? ? u1 u2 Ha Hb| | | |]; subst.
      apply (UMCat r1 r2 (c :: u1) u2); auto.
  - inversion H; subst; [apply UMAltL | apply UMAltR]; auto.
  - inversion H as [| |? ? u1 u2 Ha Hb| | | |]; subst.
    apply (UMStarApp r (c :: u1) u2); auto.
Qed.

Lemma uderiv_complete (r : URe) (u' : list N) :
  umatches r u' ->
  forall c u, u' = c :: u -> umatches (uderiv c r) u.
Proof.
  induction 1 as [|p c' Hp|r1 r2 u1 u2 H1 IH1 H2 IH2|r1 r2 u0 H IH|r1 r2 u0 H IH
                 |r|r u1 u2 H1 IH1 H2 IH2]; intros c u Hu; simpl.
  - discriminate Hu.
  - injection Hu as -> <-. rewrite Hp. constructor.
  - destruct u1 as [|c1 u1]; simpl in Hu.
    + apply unullable_matches in H1. rewrite H1.
      apply UMAltR. apply IH2. exact Hu.
    + injection Hu as -> <-.
      assert (Hcat : umatches (UCat (uderiv c r1) r2) (u1 ++ u2))
        by (constructor; [apply IH1; reflexivity | exact H2]).
      destruct (unullable r1); [apply UMAltL|]; exact Hcat.
  - apply UMAltL. apply IH. exact Hu.
  - apply UMAltR. apply IH. exact Hu.
  - discriminate Hu.
  - destruct u1 as [|c1 u1]; simpl in Hu.
    + apply (IH2 c u Hu).
    + injection Hu as -> <-.
      constructor; [apply IH1; reflexivity | exact H2].
Qed.

Lemma uMatch_correct (r : URe) (u : list N) :
  uMatch r u = true <-> umatches r u.
Proof.
  revert r. induction u as [|c u IH]; intros r; simpl.
  - apply unullable_matches.
  - rewrite IH. split.
    + apply uderiv_sound.
    + intros H. apply (uderiv_complete _ _ H). reflexivity.
Qed.

Lemma ustar_class_matches (p : N -> bool) (w : list N) :
  umatches (UStar (UClass p)) w <-> forallb p w = true.
Proof.
  split.
  - intros H. remember (UStar (UClass p)) as r eqn:Hr.
    induction H as [| | | | |r'|r' u1 u2 H1 _ H2 IH2]; try discriminate Hr.
    + reflexivity.
    + injection Hr as ->. inversion H1 as [|? c Hc| | | | |]; subst.
      simpl. rewrite Hc, IH2; reflexivity.
  - induction w as [|c w IH]; simpl; intros H.
    + constructor.
    + apply andb_true_iff in H as [Hc Hw].
      apply (UMStarApp (UClass p) [c] w);
        [constructor; exact Hc | apply IH; exact Hw].
Qed.

Lemma isWordU_matches (w : list N) :
  umatches (UPlus (UClass notSpaceNorAtU)) w <-> isWordU w = true.
Proof.
  unfold UPlus, isWordU. split.
  - intros H. inversion H as [| |? ? u1 u2 H1 H2| | | |]; subst.
    inversion H1 as [|? c Hc| | | | |]; subst.
    apply ustar_class_matches in H2. simpl. rewrite Hc, H2. reflexivity.
  - intros H. apply andb_true_iff in H as [Hne Hall].
    destruct w as [|c w]; [discriminate Hne|].
    simpl in Hall. apply andb_true_iff in Hall as [Hc Hw].
    apply (UMCat (UClass notSpaceNorAtU) (UStar (UClass notSpaceNorAtU)) [c] w);
      [constructor; exact Hc | apply ustar_class_matches; exact Hw].
Qed.

Lemma uchar_matches (d : N) (u : list N) :
  umatches (UClass (N.eqb d)) u <-> u = [d].
Proof.
  split.
  - intros H. inversion H as [|? c Hc| | | | |]; subst.
    apply N.eqb_eq in Hc. subst. reflexivity.
  - intros ->. constructor. apply N.eqb_refl.
Qed.

Lemma ucat_matches (r1 r2 : URe) (u : list N) :
  umatches (UCat r1 r2) u <->
  exists u1 u2, u = u1 ++ u2 /\ umatches r1 u1 /\ umatches r2 u2.
Proof.
  split.
  - intros H. inversion H as [| |? ? u1 u2 H1 H2| | | |]; subst. eauto.
  - intros (u1 & u2 & -> & H1 & H2). constructor; assumption.
Qed.

(** The code unit sequences the pattern accepts. *)
Lemma emailPatternU_matches (u : list N) :
  uMatch emailPatternU u = true <->
  exists l d t,
    u = l ++ atSign :: d ++ dot :: t /\
    isWordU l = true /\ isWordU d = true /\ isWordU t = true.
Proof.
  rewrite uMatch_correct. unfold emailPatternU. split.
  - intros H.
    apply ucat_matches in H as (l & u1 & -> & Hl & H).
    apply ucat_matches in H as (a & u2 & -> & Ha & H).
    apply ucat_matches in H as (d & u3 & -> & Hd & H).
    apply ucat_matches in H as (b & t & -> & Hb & Ht).
    apply uchar_matches in Ha, Hb. subst a b.
    apply isWordU_matches in Hl, Hd, Ht.
    exists l, d, t. auto.
  - intros (l & d & t & -> & Hl & Hd & Ht).
    apply isWordU_matches in Hl, Hd, Ht.
    apply UMCat; [exact Hl|].
    apply (UMCat _ _ [atSign]); [apply uchar_matches; reflexivity|].
    apply UMCat; [exact Hd|].
    apply (UMCat _ _ [dot]); [apply uchar_matches; reflexivity | exact Ht].
Qed.

(** On code units below 256 the two embeddings of the classes agree. *)
Lemma notSpaceNorAt_agree (c : ascii) :
  notSpaceNorAt c = notSpaceNorAtU (N_of_ascii c).
Proof. destruct c as [[] [] [] [] [] [] [] []]; vm_compute; reflexivity. Qed.

Lemma codeUnits_app (s1 s2 : string) :
  codeUnits (s1 +:+ s2) = codeUnits s1 ++ codeUnits s2.
Proof.
  induction s1 as [|c s1 IH]; [reflexivity|].
  change (N_of_ascii c :: codeUnits (s1 +:+ s2) =
          N_of_ascii c :: (codeUnits s1 ++ codeUnits s2)).
  rewrite IH. reflexivity.
Qed.

Lemma codeUnits_split (s : string) (u1 u2 : list N) :
  codeUnits s = u1 ++ u2 ->
  exists s1 s2, s = s1 +:+ s2 /\ codeUnits s1 = u1 /\ codeUnits s2 = u2.
Proof.
  revert s. induction u1 as [|n u1 IH]; intros s H.
  - exists ""%string, s. auto.
  - destruct s as [|c s]; [discriminate H|].
    simpl in H. injection H as Hc Hs.
    destruct (IH s Hs) as (s1 & s2 & -> & H1 & H2).
    exists (String c s1), s2. split; [reflexivity|].
    simpl. rewrite Hc, H1. auto.
Qed.

Lemma codeUnits_char (s : string) (c : ascii) (u : list N) :
  codeUnits s = N_of_ascii c :: u ->
  exists s', s = String c s' /\ codeUnits s' = u.
Proof.
  destruct s as [|c' s]; [discriminate|]. simpl. intros H.
  injection H as Hc Hs. exists s. split; [|exact Hs].
  f_equal. rewrite <- (ascii_N_embedding c'), Hc. apply ascii_N_embedding.
Qed.

Lemma isWord_codeUnits (w : string) : isWord w = isWordU (codeUnits w).
Proof.
  unfold isWord, isWordU. destruct w as [|c w]; [reflexivity|].
  simpl. f_equal. rewrite notSpaceNorAt_agree. f_equal.
  induction w as [|c' w IH]; [reflexivity|].
  simpl. rewrite notSpaceNorAt_agree, IH. reflexivity.
Qed.

(** On the strings of the embedding, the pattern of [validateType] and the
    pattern on full strings accept the same. *)
Lemma emailPattern_agree (s : string) :
  reMatch emailPattern s = uMatch emailPatternU (codeUnits s).
Proof.
  apply eq_true_iff_eq.
  rewrite TypeChecks.emailPattern_matches, emailPatternU_matches. split.
  - intros (l & d & t & -> & Hl & Hd & Ht).
    exists (codeUnits l), (codeUnits d), (codeUnits t).
    rewrite <- !isWord_codeUnits. repeat split; try assumption.
    rewrite !codeUnits_app. reflexivity.
  - intros (l & d & t & Hu & Hl & Hd & Ht).
    apply codeUnits_split in Hu as (sl & s1 & -> & <- & Hu).
    apply (codeUnits_char s1 "@"%char) in Hu as (s2 & -> & Hu).
    apply codeUnits_split in Hu as (sd & s3 & -> & <- & Hu).
    apply (codeUnits_char s3 "."%char) in Hu as (st & -> & <-).
    rewrite <- !isWord_codeUnits in *.
    exists sl, sd, st. auto.
Qed.

End WidePatterns.

Module Email.

(** X1.  The pattern of the [email] validator, matched as JavaScript does on
    a string of 16-bit code units, accepts exactly the sequences [l@d.t]
    in which [l], [d] and [t] are non-empty and hold neither a code unit of
    the class [\s] nor [@].  The type check of an [email] rule accepts a
    value exactly when it is a string that this pattern accepts; any other
    value gets ["{key} should be a valid email"], and the check never
    throws.  (The values of the embedding are strings of code units below
    256; the first part covers every string.) *)
Theorem email_check key value errs :
  (forall u : list N,
     uMatch emailPatternU u = true <->
     exists l d t,
       u = l ++ atSign :: d ++ dot :: t /\
       isWordU l = true /\ isWordU d = true /\ isWordU t = true) /\
  (validateType key value (Some "email") errs = Returns (true, errs) <->
   exists s,
     value = VJson (JStr s) /\ uMatch emailPatternU (codeUnits s) = true) /\
  (validateType key value (Some "email") errs = Returns (true, errs) \/
   validateType key value (Some "email") errs =
     Returns (false, errs ++ [key +:+ " should be a valid email"])).
Proof.
  split; [exact WidePatterns.emailPatternU_matches|].
  rewrite validateType_eq.
  assert (Hcall : callTypeValidator (Some "email") value =
                  Returns (String.eqb (typeof value) "string"
                           && reTest emailPattern value)) by reflexivity.
  rewrite Hcall. simpl. split.
  - split.
    + intros H.
      destruct (String.eqb (typeof value) "string" && reTest emailPattern value)
        eqn:Hok; [|discriminate H].
      apply andb_true_iff in Hok as [_ Hre].
      destruct value as [|[| | |s| |]| |]; try discriminate Hre.
      simpl in Hre. rewrite WidePatterns.emailPattern_agree in Hre. eauto.
    + intros (s & -> & Hre).
      rewrite <- WidePatterns.emailPattern_agree in Hre.
      simpl. rewrite Hre. simpl. rewrite app_nil_r. reflexivity.
  - destruct (String.eqb (typeof value) "string" && reTest emailPattern value);
      simpl; rewrite ?app_nil_r; auto.
Qed.

End Email.
